(** * Banner server (server.py): budgets, categories and anti-repetition

    A shallow embedding of [server.py]: the configuration loader
    [Application.read_config], the request handler [MainHandler] with its
    selection of a banner, and the rendering of the response.  Python
    dictionaries are finite maps, the [defaultdict] of categories inserts
    on a missing key as Python does, exceptions are explicit results, and
    the handlers thread the state they mutate. *)

From Stdlib Require Import ZArith Lia Ascii.
From stdpp Require Import base option list strings gmap fin_maps.

Local Open Scope Z_scope.

(** ** Exceptions and the state-and-exception monad *)

Inductive exn : Type :=
| KeyError (key : string)
| IndexError
| ValueError (what : string).

Inductive outcome (A : Type) : Type :=
| Ok (a : A)
| Raise (e : exn).

Arguments Ok {A} a.
Arguments Raise {A} e.

Definition is_ok {A} (o : outcome A) : Prop :=
  match o with Ok _ => True | Raise _ => False end.

(** A Python method of an object of type [S]: it returns or raises, and
    leaves the object in a new state either way. *)
Definition M (S A : Type) : Type := S → outcome A * S.

Definition ret {S A} (a : A) : M S A := λ s, (Ok a, s).

Definition bind {S A B} (m : M S A) (k : A → M S B) : M S B :=
  λ s, match m s with
       | (Ok a, s') => k a s'
       | (Raise e, s') => (Raise e, s')
       end.

Definition lift {S A} (o : outcome A) : M S A := λ s, (o, s).
Definition gets {S A} (f : S → A) : M S A := λ s, (Ok (f s), s).
Definition modify {S} (f : S → S) : M S unit := λ s, (Ok tt, f s).

#[global] Instance M_ret {S} : MRet (M S) := @ret S.
#[global] Instance M_bind {S} : MBind (M S) := λ A B k m, bind m k.

(** ** Built-ins *)

(** [l[n]] on a Python list: a negative index counts from the end, an
    index out of range raises [IndexError]. *)
Definition list_getitem {A} (l : list A) (n : Z) : outcome A :=
  let i := if n <? 0 then Z.of_nat (length l) + n else n in
  if i <? 0 then Raise IndexError
  else match l !! Z.to_nat i with
       | Some x => Ok x
       | None => Raise IndexError
       end.

(** [d[k]] on a Python dict. *)
Definition dict_getitem {V} (d : gmap string V) (k : string) : outcome V :=
  match d !! k with
  | Some v => Ok v
  | None => Raise (KeyError k)
  end.

(** [int(s)] in base ten, on ASCII text: blanks around, an optional sign,
    then digits, where a single underscore may separate two digits. *)
Definition is_space (a : ascii) : bool :=
  let n := nat_of_ascii a in
  ((9 <=? n)%nat && (n <=? 13)%nat) || (n =? 32)%nat.

Definition digit_of (a : ascii) : option Z :=
  let n := nat_of_ascii a in
  if ((48 <=? n)%nat && (n <=? 57)%nat)%bool then Some (Z.of_nat n - 48) else None.

Fixpoint lstrip (s : string) : string :=
  match s with
  | String a s' => if is_space a then lstrip s' else s
  | EmptyString => EmptyString
  end.

(** Digits after the sign.  [acc] is the value read so far and [prev]
    tells whether the previous character was a digit: an underscore is
    accepted only between two digits, and what follows the digits must be
    blanks up to the end. *)
Fixpoint int_digits (s : string) (acc : Z) (prev : bool) : option Z :=
  match s with
  | EmptyString => if prev then Some acc else None
  | String a s' =>
      match digit_of a with
      | Some d => int_digits s' (10 * acc + d) true
      | None =>
          if prev then
            if Ascii.eqb a "_"%char then
              match s' with
              | String b _ =>
                  match digit_of b with
                  | Some _ => int_digits s' acc false
                  | None => None
                  end
              | EmptyString => None
              end
            else if is_space a then
              match lstrip s' with EmptyString => Some acc | _ => None end
            else None
          else None
      end
  end.

Definition py_int (s : string) : outcome Z :=
  let body := lstrip s in
  let '(neg, rest) :=
    match body with
    | String "-" r => (true, r)
    | String "+" r => (false, r)
    | _ => (false, body)
    end in
  match int_digits rest 0 false with
  | Some n => Ok (if neg then - n else n)
  | None => Raise (ValueError s)
  end.

(** ** Built-ins of the request handler *)

(** [random.randint(a, b)]: some integer between [a] and [b], both
    included, and [ValueError] on an empty range.  The generator is an
    input: [seed] is its next raw value, and every integer of the range is
    the result for some seed. *)
Definition randint (seed a b : Z) : outcome Z :=
  if b <? a then Raise (ValueError "empty range for randrange()")
  else Ok (a + seed mod (b - a + 1)).

(** [l.remove(x)]: the first occurrence of [x] goes, [ValueError] when
    there is none. *)
Fixpoint list_remove_first (x : string) (l : list string) : outcome (list string) :=
  match l with
  | [] => Raise (ValueError "list.remove(x): x not in list")
  | y :: l' =>
      if decide (y = x) then Ok l'
      else match list_remove_first x l' with
           | Ok r => Ok (y :: r)
           | Raise e => Raise e
           end
  end.

(** [list(set(l))]: the elements of [l] without repetition, in the order
    of iteration of the set, which depends on the hashes of the strings. *)
Class SetOrder : Type := {
  list_of_set : list string → list string;
  list_of_set_NoDup : ∀ l, NoDup (list_of_set l);
  list_of_set_elem : ∀ l x, x ∈ list_of_set l ↔ x ∈ l
}.

(** The order of iteration of a [gset] of strings. *)
Definition gset_list_of_set (l : list string) : list string :=
  elements (list_to_set (C := gset string) l).

(** [template.format(name=value, ...)] for replacement fields that are plain
    names: [{name}] is replaced by the value of the keyword argument,
    doubled braces stand for one brace. *)
Inductive format_state : Type :=
| FText
| FOpen
| FClose
| FField (name : string).

Fixpoint format_from (st : format_state) (template : string)
    (kwargs : gmap string string) : outcome string :=
  match template with
  | EmptyString =>
      match st with
      | FText => Ok ""
      | FOpen => Raise (ValueError "Single '{' encountered in format string")
      | FClose => Raise (ValueError "Single '}' encountered in format string")
      | FField _ => Raise (ValueError "expected '}' before end of string")
      end
  | String c rest =>
      let emit (st' : format_state) (chunk : string) :=
        match format_from st' rest kwargs with
        | Ok out => Ok (chunk +:+ out)
        | Raise e => Raise e
        end in
      let close (name : string) :=
        match name with
        | EmptyString => Raise IndexError
        | _ => match kwargs !! name with
               | Some v => emit FText v
               | None => Raise (KeyError name)
               end
        end in
      match st with
      | FText =>
          if Ascii.eqb c "{"%char then emit FOpen ""
          else if Ascii.eqb c "}"%char then emit FClose ""
          else emit FText (String c "")
      | FOpen =>
          if Ascii.eqb c "{"%char then emit FText "{"
          else if Ascii.eqb c "}"%char then close ""
          else emit (FField (String c "")) ""
      | FClose =>
          if Ascii.eqb c "}"%char then emit FText "}"
          else Raise (ValueError "Single '}' encountered in format string")
      | FField name =>
          if Ascii.eqb c "}"%char then close name
          else emit (FField (name +:+ String c "")) ""
      end
  end.

Definition str_format (template : string) (kwargs : gmap string string) : outcome string :=
  format_from FText template kwargs.

(** The double quote of the HTML attributes. *)
Definition dquote : string := String (ascii_of_nat 34) "".

(** ** The application state *)

Record Application : Type := mkApplication {
  banner_urls : list string;
  banner_shows : gmap string Z;
  banner_categories : gmap string (list string);  (* a defaultdict(list) *)
  last_banners : gmap string string               (* {ip: banner_url} *)
}.

Definition set_banner_urls (f : list string → list string) (a : Application) :=
  mkApplication (f (banner_urls a)) (banner_shows a) (banner_categories a) (last_banners a).
Definition set_banner_shows (f : gmap string Z → gmap string Z) (a : Application) :=
  mkApplication (banner_urls a) (f (banner_shows a)) (banner_categories a) (last_banners a).
Definition set_banner_categories
    (f : gmap string (list string) → gmap string (list string)) (a : Application) :=
  mkApplication (banner_urls a) (banner_shows a) (f (banner_categories a)) (last_banners a).
Definition set_last_banners (f : gmap string string → gmap string string) (a : Application) :=
  mkApplication (banner_urls a) (banner_shows a) (banner_categories a) (f (last_banners a)).

(** [d[k]] on a [defaultdict(list)]: a missing key is inserted with the
    empty list, which is returned. *)
Definition defaultdict_getitem (d : gmap string (list string)) (k : string)
  : list string * gmap string (list string) :=
  match d !! k with
  | Some l => (l, d)
  | None => ([], <[k := []]> d)
  end.

(** ** Application.read_config *)

(** [self.banner_categories[category].append(url)] *)
Definition register_category (url category : string) : M Application unit :=
  modify (set_banner_categories (λ d,
    let '(l, d') := defaultdict_getitem d category in <[category := l ++ [url]]> d')).

Fixpoint register_categories (url : string) (categories : list string) : M Application unit :=
  match categories with
  | [] => ret tt
  | category :: rest =>
      register_category url category ;; register_categories url rest
  end.

(** The body of the loop over the rows that [csv.reader] yields. *)
Definition read_row (row : list string) : M Application unit :=
  url ← lift (list_getitem row 0);
  field ← lift (list_getitem row 1);
  shows ← lift (py_int field);
  let categories := drop 2 row in
  modify (set_banner_urls (λ l, l ++ [url]));;
  register_categories url categories;;
  modify (set_banner_shows <[url := shows]>).

Fixpoint read_rows (rows : list (list string)) : M Application unit :=
  match rows with
  | [] => ret tt
  | row :: rest => read_row row ;; read_rows rest
  end.

Definition read_config (rows : list (list string)) : M Application unit :=
  read_rows rows.

(** [Application.__init__]: empty containers, then the configuration; the
    client history is created last.  The construction fails when
    [read_config] raises. *)
Definition empty_application : Application := mkApplication [] ∅ ∅ ∅.

Definition Application_init (rows : list (list string)) : outcome Application :=
  match read_config rows empty_application with
  | (Ok _, a) => Ok (set_last_banners (λ _, ∅) a)
  | (Raise e, _) => Raise e
  end.

(** ** MainHandler *)

Definition CONFIG_FILENAME : string := "config.csv".
Definition GET_PARAM_NAME : string := "category[]".

(** The request: the query arguments by name, the values of
    [category[]] as decoded by [get_request_categories] (the decoding
    itself is the first step of [handle], further down), and the address
    of the client. *)
Record HTTPRequest : Type := mkRequest {
  arguments : gmap string (list string);
  remote_ip : string
}.

(** The handler object of one request: [self]. *)
Record RequestHandler : Type := mkHandler {
  application : Application;
  request : HTTPRequest;
  status_code : Z;
  write_buffer : list string;
  finished : bool
}.

Definition on_application (f : Application → Application) (h : RequestHandler) :=
  mkHandler (f (application h)) (request h) (status_code h) (write_buffer h) (finished h).

(** [self.set_status], [self.write] and [self.finish] of the framework. *)
Definition set_status (code : Z) : M RequestHandler unit :=
  modify (λ h, mkHandler (application h) (request h) code (write_buffer h) (finished h)).
Definition write (chunk : string) : M RequestHandler unit :=
  modify (λ h, mkHandler (application h) (request h) (status_code h)
                 (write_buffer h ++ [chunk]) (finished h)).
Definition finish : M RequestHandler unit :=
  modify (λ h, mkHandler (application h) (request h) (status_code h) (write_buffer h) true).

(** [Application.get_last_banner] and [Application.set_last_banner] *)
Definition get_last_banner (ip : string) : M RequestHandler (option string) :=
  gets (λ h, last_banners (application h) !! ip).
Definition set_last_banner (ip banner_url : string) : M RequestHandler unit :=
  modify (on_application (set_last_banners <[ip := banner_url]>)).

(** [get_request_categories], on the decoded values: the values of
    [category[]], none when the argument is absent. *)
Definition get_request_categories : M RequestHandler (list string) :=
  gets (λ h, default [] (arguments (request h) !! GET_PARAM_NAME)).

(** [self.application.banner_categories[category]] *)
Definition banners_of_category (category : string) : M RequestHandler (list string) :=
  λ h, let '(l, d) := defaultdict_getitem (banner_categories (application h)) category in
       (Ok l, on_application (set_banner_categories (λ _, d)) h).

(** [[banner_url for category in categories for banner_url in ...[category]]] *)
Fixpoint banners_of_categories (categories : list string) : M RequestHandler (list string) :=
  match categories with
  | [] => mret []
  | category :: rest =>
      l ← banners_of_category category;
      r ← banners_of_categories rest;
      mret (l ++ r)
  end.

(** [[banner_url for banner_url in available_banners if shows[banner_url] > 0]] *)
Fixpoint positive_shows (shows : gmap string Z) (available_banners : list string)
  : outcome (list string) :=
  match available_banners with
  | [] => Ok []
  | banner_url :: rest =>
      match dict_getitem shows banner_url with
      | Raise e => Raise e
      | Ok n =>
          match positive_shows shows rest with
          | Raise e => Raise e
          | Ok r => Ok (if 0 <? n then banner_url :: r else r)
          end
      end
  end.

(** Truth value of [last_banner]: [None] and the empty string are false. *)
Definition truthy (last_banner : option string) : bool :=
  match last_banner with
  | Some (String _ _) => true
  | _ => false
  end.

Definition choose_banner (seed : Z) (banners : list string) : outcome string :=
  match randint seed 0 (Z.of_nat (length banners) - 1) with
  | Ok n => list_getitem banners n
  | Raise e => Raise e
  end.

Definition banner_wrapper (banner_url : string) : outcome string :=
  str_format
    ("{url}<img src=" +:+ dquote +:+ "{url}" +:+ dquote +:+
     " alt=" +:+ dquote +:+ "{alt}" +:+ dquote +:+ ">")
    (<["url" := banner_url]> (<["alt" := "Banner"]> ∅)).

Definition output_banner (banner_url : string) : M RequestHandler unit :=
  html ← lift (banner_wrapper banner_url);
  write html;;
  (* self.application.banner_shows[banner_url] -= 1 *)
  shows ← gets (λ h, banner_shows (application h));
  n ← lift (dict_getitem shows banner_url);
  modify (on_application (set_banner_shows <[banner_url := n - 1]>));;
  ip ← gets (λ h, remote_ip (request h));
  set_last_banner ip banner_url.

Definition banner_not_found : M RequestHandler unit :=
  set_status 404;;
  write "Not found".

Section Handler.
Context `{SetOrder}.

(** The first part of [get_available_banners_for_categories]: the
    banners of the requested categories, or all of them. *)
Definition category_banners (categories : list string) : M RequestHandler (list string) :=
  match categories with
  | _ :: _ =>
      available_banners ← banners_of_categories categories;
      mret (list_of_set available_banners)
  | [] => gets (λ h, banner_urls (application h))
  end.

(** The second part: the filter on the show counts. *)
Definition budget_banners (categories : list string) : M RequestHandler (list string) :=
  available_banners ← category_banners categories;
  shows ← gets (λ h, banner_shows (application h));
  lift (positive_shows shows available_banners).

(** The third part: the last banner of the client is removed when
    another one is left. *)
Definition without_last_banner (available_banners : list string)
  : M RequestHandler (list string) :=
  ip ← gets (λ h, remote_ip (request h));
  last_banner ← get_last_banner ip;
  match last_banner with
  | Some last =>
      if truthy last_banner && bool_decide (last ∈ available_banners) then
        if 1 <? Z.of_nat (length available_banners) then
          lift (list_remove_first last available_banners)
        else mret available_banners
      else mret available_banners
  | None => mret available_banners
  end.

Definition get_available_banners_for_categories (categories : list string)
  : M RequestHandler (list string) :=
  available_banners ← budget_banners categories;
  without_last_banner available_banners.

(** [MainHandler.get]; [seed] feeds the random generator. *)
Definition get (seed : Z) : M RequestHandler unit :=
  request_categories ← get_request_categories;
  available_banners ← get_available_banners_for_categories request_categories;
  match available_banners with
  | _ :: _ =>
      target_banner ← lift (choose_banner seed available_banners);
      output_banner target_banner
  | [] => banner_not_found
  end;;
  finish.

End Handler.

(** ** Serving requests *)

Record Response : Type := mkResponse {
  status : Z;
  body : string
}.

Definition new_handler (app : Application) (req : HTTPRequest) : RequestHandler :=
  mkHandler app req 200 [] false.

Section Serve.
Context `{SetOrder}.

(** One request against the application: the response sent, and the
    application as the handler leaves it.  The framework answers 500
    when the handler raises. *)
Definition serve (app : Application) (req : HTTPRequest) (seed : Z)
  : Response * Application :=
  match get seed (new_handler app req) with
  | (Ok _, h) => (mkResponse (status_code h) (String.concat "" (write_buffer h)), application h)
  | (Raise _, h) => (mkResponse 500 "", application h)
  end.

(** A run: the requests in order, each with the value of the generator. *)
Fixpoint serve_all (app : Application) (reqs : list (HTTPRequest * Z))
  : list Response * Application :=
  match reqs with
  | [] => ([], app)
  | (req, seed) :: rest =>
      let '(resp, app') := serve app req seed in
      let '(resps, app'') := serve_all app' rest in
      (resp :: resps, app'')
  end.

End Serve.

(** A request for the given categories. *)
Definition category_request (ip : string) (categories : list string) : HTTPRequest :=
  mkRequest (if categories is [] then ∅ else {[ GET_PARAM_NAME := categories ]}) ip.

(** ** What the claims speak of *)

(** The banners registered under a category: none for a label that is
    not a key of the index. *)
Definition registered (app : Application) (category : string) : list string :=
  default [] (banner_categories app !! category).

(** The category candidates of a request. *)
Definition candidate (app : Application) (categories : list string) (url : string) : Prop :=
  match categories with
  | [] => url ∈ banner_urls app
  | _ :: _ => ∃ category, category ∈ categories ∧ url ∈ registered app category
  end.

(** The show count of a banner is strictly positive. *)
Definition has_budget (shows : gmap string Z) (url : string) : Prop :=
  ∃ n, shows !! url = Some n ∧ 0 < n.

#[global] Instance has_budget_dec shows url : Decision (has_budget shows url).
Proof.
  unfold has_budget. destruct (shows !! url) as [n|] eqn:E.
  - destruct (decide (0 < n)); [left; eauto | right; intros (m & [= <-] & ?); done].
  - right. intros (m & [=] & _).
Defined.

(** Every banner of the list and of the index has a show count: what
    [read_config] establishes. *)
Definition ledger_covers (app : Application) : Prop :=
  Forall (λ url, is_Some (banner_shows app !! url)) (banner_urls app) ∧
  map_Forall (λ _ l, Forall (λ url, is_Some (banner_shows app !! url)) l)
    (banner_categories app).

#[global] Instance ledger_covers_dec app : Decision (ledger_covers app).
Proof. unfold ledger_covers. apply _. Defined.

Definition request_categories (req : HTTPRequest) : list string :=
  default [] (arguments req !! GET_PARAM_NAME).

(** The keys that the lookups of a request add to the index. *)
Definition touched (categories : list string) (d : gmap string (list string))
  : gmap string (list string) :=
  foldl (λ d category, (defaultdict_getitem d category).2) d categories.

Definition with_categories (d : gmap string (list string)) (h : RequestHandler) :=
  on_application (set_banner_categories (λ _, d)) h.

(** The page of a banner: its address, then the image. *)
Definition img_element (src alt : string) : string :=
  "<img src=" +:+ dquote +:+ src +:+ dquote +:+ " alt=" +:+ dquote +:+ alt +:+ dquote +:+ ">".

Definition banner_html (banner_url : string) : string :=
  banner_url +:+ img_element banner_url "Banner".

(** The response that shows a banner, and the number of responses of a
    run that show it. *)
Definition shows_banner (url : string) (resp : Response) : Prop :=
  status resp = 200 ∧ banner_wrapper url = Ok (body resp).

#[global] Instance shows_banner_dec url resp : Decision (shows_banner url resp).
Proof. unfold shows_banner. apply and_dec; [apply _ |]. 
  destruct (banner_wrapper url) as [b|e]; [| right; done].
  destruct (decide (b = body resp)); [left; congruence | right; congruence].
Defined.

Definition selections (url : string) (resps : list Response) : Z :=
  Z.of_nat (length (filter (shows_banner url) resps)).

Definition not_found : Response := mkResponse 404 "Not found".

Definition after_lookups (app : Application) (req : HTTPRequest) : Application :=
  set_banner_categories (touched (request_categories req)) app.

Definition after_show (app : Application) (req : HTTPRequest) (target : string) (n : Z)
  : Application :=
  mkApplication (banner_urls app) (<[target := n - 1]> (banner_shows app))
    (touched (request_categories req) (banner_categories app))
    (<[remote_ip req := target]> (last_banners app)).

(** The index after [banner_categories[category].append(url)]. *)
Definition add_url (url : string) (d : gmap string (list string)) (category : string)
  : gmap string (list string) :=
  <[category := default [] (d !! category) ++ [url]]> d.

(** The application after a well-formed row. *)
Definition after_row (url : string) (shows : Z) (categories : list string) (a : Application)
  : Application :=
  mkApplication (banner_urls a ++ [url]) (<[url := shows]> (banner_shows a))
    (foldl (add_url url) (banner_categories a) categories) (last_banners a).

(** What a row tells: its identifier, its budget, its memberships of a
    category (one for every time the row names the category). *)
Definition row_url (row : list string) : option string := row !! 0%nat.

Definition row_budget (row : list string) : option Z :=
  match row !! 1%nat with
  | Some field => match py_int field with Ok n => Some n | Raise _ => None end
  | None => None
  end.

Definition row_memberships (category : string) (row : list string) : list string :=
  match row_url row with
  | Some url => (λ _, url) <$> filter (λ c, c = category) (drop 2 row)
  | None => []
  end.

Definition records_of (url : string) (rows : list (list string)) : list (list string) :=
  filter (λ row, row_url row = Some url) rows.

Section Eligible.
Context `{SetOrder}.

(** The list that the first part of the selection computes. *)
Definition candidates (app : Application) (categories : list string) : list string :=
  match categories with
  | [] => banner_urls app
  | _ :: _ => list_of_set (categories ≫= registered app)
  end.

(** The budget-eligible list and the list given to the random choice. *)
Definition budget_eligible (app : Application) (req : HTTPRequest) : outcome (list string) :=
  (budget_banners (request_categories req) (new_handler app req)).1.

Definition eligible (app : Application) (req : HTTPRequest) : outcome (list string) :=
  (get_available_banners_for_categories (request_categories req) (new_handler app req)).1.

End Eligible.

(** ** The claims as worded, and the configurations of the examples *)

(** Three banners, two of them in category [x]. *)
Definition demo_rows : list (list string) :=
  [["a.png"; "1"; "x"]; ["b.png"; "1"; "x"]; ["c.png"; "1"]].

Definition demo_app : Application :=
  match Application_init demo_rows with
  | Ok app => app
  | Raise _ => empty_application
  end.

(** A configuration that repeats an identifier. *)
Definition repeated_rows : list (list string) :=
  [["a.png"; "5"]; ["a.png"; "5"]; ["b.png"; "5"]].

Definition repeated_app : Application :=
  match Application_init repeated_rows with
  | Ok app => app
  | Raise _ => empty_application
  end.

(** The claim as the specification words it: loading fails as soon as a
    row has fewer than two fields or a budget that is not a non-negative
    integer. *)
Definition nonneg_budget (row : list string) : Prop :=
  ∃ n, row_budget row = Some n ∧ 0 ≤ n.

Definition loading_fails (rows : list (list string)) : Prop :=
  ∃ e, Application_init rows = Raise e.

Definition fails_unless_nonneg (rows : list (list string)) : Prop :=
  Exists (λ row, (length row < 2)%nat ∨ ¬ nonneg_budget row) rows → loading_fails rows.

(** A row that [read_row] refuses: fewer than two fields, or a second
    field that [int] does not parse. *)
Definition bad_row (row : list string) : Prop :=
  (length row < 2)%nat ∨ ∃ field e, row !! 1%nat = Some field ∧ py_int field = Raise e.

(** Two banners, each alone in its category. *)
Definition spent_rows : list (list string) :=
  [["a.png"; "2"; "x"]; ["b.png"; "1"; "y"]].

Definition spent_app : Application :=
  match Application_init spent_rows with
  | Ok app => app
  | Raise _ => empty_application
  end.

(** The claim as the specification words it: neither the list of banners
    nor the index of categories is changed by a request. *)
Definition inventory_unchanged `{SetOrder} (app : Application) (req : HTTPRequest)
    (seed : Z) : Prop :=
  banner_urls (serve app req seed).2 = banner_urls app ∧
  banner_categories (serve app req seed).2 = banner_categories app.

(** An anchor with the given target, and whether a string occurs in
    another. *)
Definition a_href (target : string) : string :=
  "<a href=" +:+ dquote +:+ target +:+ dquote.

Fixpoint occurs_in (needle hay : string) : bool :=
  String.prefix needle hay ||
  match hay with
  | String _ rest => occurs_in needle rest
  | EmptyString => false
  end.

(** The claim as the specification words it: the page has the identifier
    as the target of a link, and an image of that source whose alternate
    text is [Banner.] with the full stop. *)
Definition page_as_claimed (banner_url page : string) : Prop :=
  occurs_in (a_href banner_url) page = true ∧
  occurs_in (img_element banner_url "Banner.") page = true.

Definition renders_as_claimed (banner_url : string) : Prop :=
  ∃ page, banner_wrapper banner_url = Ok page ∧ page_as_claimed banner_url page.

(** The budget left in the show counts: the sum of the positive ones. *)
Definition budget_left (shows : gmap string Z) : Z :=
  map_fold (λ _ n acc, Z.max 0 n + acc) 0 shows.

(** The number of answers of a run that show a banner. *)
Definition banners_shown (resps : list Response) : Z :=
  Z.of_nat (length (filter (λ resp, status resp = 200) resps)).

(** ** The request as the framework hands it over *)

(** [bytes.decode()] with its default codec: the text of a byte string, or
    [UnicodeDecodeError] (a [ValueError]).  The codec is a parameter: what
    is proved of the decoding step holds for whatever it accepts. *)
Class Codec : Type := {
  bytes_decode : string → outcome string
}.

(** The request before the values of its arguments are decoded: they are
    byte strings. *)
Record RawRequest : Type := mkRawRequest {
  raw_arguments : gmap string (list string);
  raw_remote_ip : string
}.

Definition raw_categories (raw : RawRequest) : list string :=
  default [] (raw_arguments raw !! GET_PARAM_NAME).

(** The request that the rest of the handler works on, once the values
    of [category[]] are decoded. *)
Definition decoded_request (raw : RawRequest) (categories : list string) : HTTPRequest :=
  mkRequest {[ GET_PARAM_NAME := categories ]} (raw_remote_ip raw).

Section Decoding.
Context {codec : Codec}.

(** [[category.decode() for category in ...]] of [get_request_categories]:
    the first value that does not decode raises. *)
Fixpoint decode_all (values : list string) : outcome (list string) :=
  match values with
  | [] => Ok []
  | category :: rest =>
      match bytes_decode category with
      | Raise e => Raise e
      | Ok text =>
          match decode_all rest with
          | Raise e => Raise e
          | Ok texts => Ok (text :: texts)
          end
      end
  end.

Context {order : SetOrder}.

(** [MainHandler.get] from the request of the framework: the requested
    categories are decoded first, before anything is read or written; an
    exception there ends the request with the application untouched and
    the answer 500 of the framework; otherwise the handler goes on with
    the decoded categories. *)
Definition handle (app : Application) (raw : RawRequest) (seed : Z)
  : Response * Application :=
  match decode_all (raw_categories raw) with
  | Ok categories => serve app (decoded_request raw categories) seed
  | Raise _ => (mkResponse 500 "", app)
  end.

Fixpoint handle_all (app : Application) (raws : list (RawRequest * Z))
  : list Response * Application :=
  match raws with
  | [] => ([], app)
  | (raw, seed) :: rest =>
      let '(resp, app') := handle app raw seed in
      let '(resps, app'') := handle_all app' rest in
      (resp :: resps, app'')
  end.

End Decoding.

(** A codec for the examples: UTF-8, strict.  A byte string is text when
    it is a sequence of well-formed UTF-8 sequences (no overlong form, no
    surrogate, nothing above U+10FFFF); the text is kept as these bytes. *)
Definition byte_in (lo hi : nat) (a : ascii) : bool :=
  ((lo <=? nat_of_ascii a)%nat && (nat_of_ascii a <=? hi)%nat)%bool.

Definition second_of_three (a b : ascii) : bool :=
  if (nat_of_ascii a =? 224)%nat then byte_in 160 191 b
  else if (nat_of_ascii a =? 237)%nat then byte_in 128 159 b
  else byte_in 128 191 b.

Definition second_of_four (a b : ascii) : bool :=
  if (nat_of_ascii a =? 240)%nat then byte_in 144 191 b
  else if (nat_of_ascii a =? 244)%nat then byte_in 128 143 b
  else byte_in 128 191 b.

Fixpoint utf8_valid (s : string) : bool :=
  match s with
  | EmptyString => true
  | String a s1 =>
      if byte_in 0 127 a then utf8_valid s1
      else
        match s1 with
        | EmptyString => false
        | String b s2 =>
            if byte_in 194 223 a then byte_in 128 191 b && utf8_valid s2
            else
              match s2 with
              | EmptyString => false
              | String c s3 =>
                  if byte_in 224 239 a then
                    second_of_three a b && byte_in 128 191 c && utf8_valid s3
                  else
                    match s3 with
                    | EmptyString => false
                    | String d s4 =>
                        byte_in 240 244 a && second_of_four a b &&
                        byte_in 128 191 c && byte_in 128 191 d && utf8_valid s4
                    end
              end
        end
  end.

Definition utf8_decode (s : string) : outcome string :=
  if utf8_valid s then Ok s
  else Raise (ValueError "'utf-8' codec can't decode bytes").

#[global] Instance utf8_codec : Codec := {| bytes_decode := utf8_decode |}.

(** A request of the framework for the given values of [category[]]. *)
Definition raw_category_request (ip : string) (values : list string) : RawRequest :=
  mkRawRequest (if values is [] then ∅ else {[ GET_PARAM_NAME := values ]}) ip.

(** ** The built-ins and the parts of the handler, run *)

Lemma list_getitem_nat {A} (l : list A) (i : nat) :
  list_getitem l (Z.of_nat i) = match l !! i with Some x => Ok x | None => Raise IndexError end.
Proof.
  unfold list_getitem.
  assert (E : (Z.of_nat i <? 0) = false) by (apply Z.ltb_ge; lia).
  cbv zeta. rewrite E. rewrite E. by rewrite Nat2Z.id.
Qed.

Lemma defaultdict_getitem_fst d k :
  (defaultdict_getitem d k).1 = default [] (d !! k).
Proof. unfold defaultdict_getitem. by destruct (d !! k). Qed.

Lemma defaultdict_getitem_lookup d k k' :
  (defaultdict_getitem d k).2 !! k' =
  match d !! k' with
  | Some l => Some l
  | None => if decide (k' = k) then Some [] else None
  end.
Proof.
  unfold defaultdict_getitem. destruct (d !! k) as [l|] eqn:E; simpl.
  - destruct (d !! k') eqn:E'; [done|]. case_decide; [congruence | done].
  - destruct (decide (k' = k)) as [->|Hne].
    + by rewrite lookup_insert_eq, E.
    + rewrite lookup_insert_ne by done. by destruct (d !! k').
Qed.

Lemma touched_lookup categories d k :
  touched categories d !! k =
  match d !! k with
  | Some l => Some l
  | None => if decide (k ∈ categories) then Some [] else None
  end.
Proof.
  unfold touched. revert d. induction categories as [|c cs IH]; intros d; cbn [foldl].
  - destruct (d !! k); [done|]. by rewrite decide_False by apply not_elem_of_nil.
  - rewrite IH, defaultdict_getitem_lookup.
    destruct (d !! k) as [l|]; [done|].
    destruct (decide (k = c)) as [->|Hne].
    + rewrite decide_True by left. done.
    + destruct (decide (k ∈ cs)) as [Hin|Hout].
      * rewrite decide_True by (by right). done.
      * rewrite decide_False; [done|]. intros [?|?]%elem_of_cons; done.
Qed.

Lemma touched_default categories d k :
  default [] (touched categories d !! k) = default [] (d !! k).
Proof.
  rewrite touched_lookup. destruct (d !! k); [done|]. by case_decide.
Qed.

Lemma registered_with_categories d h category :
  registered (application (with_categories d h)) category = default [] (d !! category).
Proof. reflexivity. Qed.

Lemma banners_of_categories_run categories h :
  banners_of_categories categories h =
  (Ok (categories ≫= registered (application h)),
   with_categories (touched categories (banner_categories (application h))) h).
Proof.
  revert h. induction categories as [|c cs IH]; intros h.
  - destruct h as [[] ? ? ? ?]. reflexivity.
  - cbn [banners_of_categories]. unfold mbind at 1, M_bind, bind, banners_of_category.
    pose proof (defaultdict_getitem_fst (banner_categories (application h)) c) as Hfst.
    pose proof (defaultdict_getitem_lookup (banner_categories (application h)) c) as Hsnd.
    destruct (defaultdict_getitem (banner_categories (application h)) c) as [l d] eqn:E.
    simpl in Hfst, Hsnd. subst l.
    unfold mbind at 1, M_bind, bind. rewrite IH.
    unfold mret, M_ret, ret.
    assert (cs ≫= registered (application
              (on_application (set_banner_categories (λ _, d)) h)) =
            cs ≫= registered (application h)) as ->.
    { apply list_bind_ext; [|done]. intros k. unfold registered. simpl.
      rewrite Hsnd. destruct (banner_categories (application h) !! k); [done|].
      by case_decide. }
    f_equal.
    destruct h as [[] ? ? ? ?]. unfold with_categories, on_application,
      set_banner_categories, touched. simpl in *. by rewrite E.
Qed.

Lemma positive_shows_filter shows l r :
  positive_shows shows l = Ok r → r = filter (has_budget shows) l.
Proof.
  revert r. induction l as [|url l IH]; intros r; simpl.
  - by intros [= <-].
  - unfold dict_getitem. destruct (shows !! url) as [n|] eqn:E; [|done].
    destruct (positive_shows shows l) as [r'|]; [|done].
    intros [= <-]. rewrite (IH r' eq_refl).
    destruct (Z.ltb_spec 0 n).
    + rewrite filter_cons_True; [done|]. by exists n.
    + rewrite filter_cons_False; [done|]. intros (m & Hm & ?). simplify_eq. lia.
Qed.

Lemma positive_shows_ok shows l :
  Forall (λ url, is_Some (shows !! url)) l → ∃ r, positive_shows shows l = Ok r.
Proof.
  induction 1 as [|url l [n Hn] _ [r IH]]; simpl; [by eexists|].
  unfold dict_getitem. rewrite Hn, IH. by eexists.
Qed.

Lemma positive_shows_raise shows l e :
  positive_shows shows l = Raise e → ∃ url, url ∈ l ∧ shows !! url = None.
Proof.
  induction l as [|url l IH]; simpl; [done|].
  unfold dict_getitem. destruct (shows !! url) as [n|] eqn:E.
  - destruct (positive_shows shows l); [done|]. intros [= <-].
    destruct IH as (u & ? & ?); [done|]. exists u. split; [by right | done].
  - intros _. exists url. split; [by left | done].
Qed.

Lemma list_remove_first_elem x l :
  x ∈ l →
  ∃ r, list_remove_first x l = Ok r ∧ length l = S (length r) ∧
       (∀ y, y ∈ r → y ∈ l) ∧ (∀ y, y ∈ l → y ≠ x → y ∈ r) ∧
       (NoDup l → x ∉ r).
Proof.
  induction l as [|y l IH]; [by intros ?%elem_of_nil|].
  intros Hin. simpl. destruct (decide (y = x)) as [->|Hne].
  - exists l. repeat split; [by right.. | |].
    + intros z [->|?]%elem_of_cons ?; done.
    + by intros [? _]%NoDup_cons.
  - apply elem_of_cons in Hin as [->|Hin]; [done|].
    destruct (IH Hin) as (r & -> & Hlen & Hsub & Hkeep & Hnd).
    exists (y :: r). repeat split.
    + simpl. by rewrite Hlen.
    + intros z [->|?]%elem_of_cons; [by left | right; auto].
    + intros z [->|?]%elem_of_cons ?; [by left | right; auto].
    + intros [? ?]%NoDup_cons [?|?]%elem_of_cons; [done | by apply Hnd].
Qed.

Lemma banner_wrapper_run banner_url :
  banner_wrapper banner_url = Ok (banner_html banner_url).
Proof. vm_compute. reflexivity. Qed.

#[global] Opaque banner_wrapper.

Lemma choose_banner_elem seed banners :
  banners ≠ [] → ∃ target, choose_banner seed banners = Ok target ∧ target ∈ banners.
Proof.
  intros Hne. unfold choose_banner, randint.
  assert (0 < Z.of_nat (length banners)) as Hlen by (destruct banners; [done | simpl; lia]).
  destruct (Z.ltb_spec (Z.of_nat (length banners) - 1) 0) as [?|_]; [lia|].
  replace (Z.of_nat (length banners) - 1 - 0 + 1) with (Z.of_nat (length banners)) by lia.
  pose proof (Z.mod_pos_bound seed _ Hlen) as [Hlo Hhi].
  rewrite Z.add_0_l. rewrite <- (Z2Nat.id _ Hlo), list_getitem_nat.
  destruct (lookup_lt_is_Some_2 banners (Z.to_nat (seed `mod` Z.of_nat (length banners))))
    as [target Ht]; [lia|].
  rewrite Ht. exists target. split; [done|]. by eapply list_elem_of_lookup_2.
Qed.

(** Every position of the list is the choice for some value of the
    generator. *)
Lemma choose_banner_any (i : nat) banners target :
  banners !! i = Some target → choose_banner (Z.of_nat i) banners = Ok target.
Proof.
  intros Hi. pose proof (lookup_lt_Some _ _ _ Hi) as Hlt.
  unfold choose_banner, randint.
  destruct (Z.ltb_spec (Z.of_nat (length banners) - 1) 0) as [?|_]; [lia|].
  replace (Z.of_nat (length banners) - 1 - 0 + 1) with (Z.of_nat (length banners)) by lia.
  rewrite Z.mod_small by lia. rewrite Z.add_0_l, list_getitem_nat. by rewrite Hi.
Qed.

Section HandlerRuns.
Context `{SetOrder}.

Lemma elem_of_candidates app categories url :
  url ∈ candidates app categories ↔ candidate app categories url.
Proof.
  destruct categories as [|c cs]; [done|].
  unfold candidates, candidate. rewrite list_of_set_elem, list_elem_of_bind.
  split; intros (c' & ? & ?); exists c'; done.
Qed.

Lemma category_banners_run categories h :
  category_banners categories h =
  (Ok (candidates (application h) categories),
   with_categories (touched categories (banner_categories (application h))) h).
Proof.
  destruct categories as [|c cs].
  - destruct h as [[] ? ? ? ?]. reflexivity.
  - unfold category_banners, mbind, M_bind, bind.
    by rewrite banners_of_categories_run.
Qed.

Lemma budget_banners_run categories h :
  budget_banners categories h =
  (positive_shows (banner_shows (application h)) (candidates (application h) categories),
   with_categories (touched categories (banner_categories (application h))) h).
Proof.
  unfold budget_banners, mbind, M_bind, bind. rewrite category_banners_run.
  reflexivity.
Qed.

Lemma without_last_banner_run l h :
  ∃ r, without_last_banner l h = (Ok r, h) ∧
       (∀ y, y ∈ r → y ∈ l) ∧ (r = [] → l = []) ∧
       (∀ last, last_banners (application h) !! remote_ip (request h) = Some last →
                last ≠ "" → last ∈ l → NoDup l →
                (l = [last] ∧ r = l) ∨
                ((last ∉ r) ∧ ∀ y, y ∈ l → y ≠ last → y ∈ r)).
Proof.
  unfold without_last_banner, mbind, M_bind, bind, gets, get_last_banner. simpl.
  destruct (last_banners (application h) !! remote_ip (request h)) as [last|] eqn:E.
  2:{ exists l. repeat split; auto. intros ? [=]. }
  destruct (truthy (Some last) && bool_decide (last ∈ l)) eqn:Hc.
  2:{ exists l. repeat split; auto. intros x [= <-] Hne Hin _.
      apply andb_false_iff in Hc as [Hc|Hc].
      - destruct last; done.
      - by apply bool_decide_eq_false in Hc. }
  apply andb_true_iff in Hc as [_ Hin%bool_decide_eq_true].
  destruct (Z.ltb_spec 1 (Z.of_nat (length l))) as [Hlen|Hlen].
  - destruct (list_remove_first_elem last l Hin) as (r & Hr & Hl & Hsub & Hkeep & Hnd).
    exists r. unfold lift. rewrite Hr. repeat split; auto.
    + intros ->. simpl in Hl. lia.
    + intros x [= <-] _ _ Hno. right. auto.
  - exists l. unfold mret, M_ret, ret. repeat split; auto.
    intros x [= <-] _ _ _. left. split; [|done].
    destruct l as [|y [|z l]]; simpl in Hlen; [by apply elem_of_nil in Hin | | lia].
    by apply list_elem_of_singleton in Hin as ->.
Qed.

Lemma budget_eligible_eq app req :
  budget_eligible app req =
  positive_shows (banner_shows app) (candidates app (request_categories req)).
Proof. unfold budget_eligible. by rewrite budget_banners_run. Qed.

Lemma eligible_eq app req :
  eligible app req =
  match budget_eligible app req with
  | Ok l => (without_last_banner l (new_handler (after_lookups app req) req)).1
  | Raise e => Raise e
  end.
Proof.
  rewrite budget_eligible_eq.
  unfold eligible, get_available_banners_for_categories, mbind, M_bind, bind.
  rewrite budget_banners_run. simpl.
  destruct (positive_shows _ _); reflexivity.
Qed.

(** The three ways a request ends. *)
Lemma serve_cases app req seed :
  match eligible app req with
  | Raise e => serve app req seed = (mkResponse 500 "", after_lookups app req)
  | Ok [] => serve app req seed = (not_found, after_lookups app req)
  | Ok (b :: bs) =>
      ∃ target n, choose_banner seed (b :: bs) = Ok target ∧
                  banner_shows app !! target = Some n ∧ 0 < n ∧
                  serve app req seed =
                  (mkResponse 200 (banner_html target), after_show app req target n)
  end.
Proof.
  rewrite eligible_eq, budget_eligible_eq.
  unfold serve, get, mbind, M_bind, bind, get_request_categories, gets.
  unfold get_available_banners_for_categories, mbind, M_bind, bind.
  rewrite budget_banners_run.
  change (default [] (arguments (request (new_handler app req)) !! GET_PARAM_NAME))
    with (request_categories req).
  change (application (new_handler app req)) with app.
  change (with_categories (touched (request_categories req) (banner_categories app))
            (new_handler app req))
    with (new_handler (after_lookups app req) req).
  destruct (positive_shows (banner_shows app) (candidates app (request_categories req)))
    as [l|e] eqn:Hl; [|reflexivity].
  apply positive_shows_filter in Hl.
  destruct (without_last_banner_run l (new_handler (after_lookups app req) req))
    as (r & Hr & Hsub & _). rewrite Hr. simpl.
  destruct r as [|b bs]; [reflexivity|].
  destruct (choose_banner_elem seed (b :: bs)) as (target & Ht & Hin); [done|].
  assert (has_budget (banner_shows app) target) as (n & Hn & Hpos).
  { apply Hsub in Hin. rewrite Hl in Hin. by apply list_elem_of_filter in Hin as [? _]. }
  exists target, n. split; [done|]. split; [done|]. split; [done|].
  unfold lift. rewrite Ht.
  unfold output_banner, mbind, M_bind, bind, lift. rewrite banner_wrapper_run.
  unfold write, modify, gets, dict_getitem. simpl. rewrite Hn. simpl.
  reflexivity.
Qed.

End HandlerRuns.

(** ** The loader, run *)

Lemma register_categories_run url categories a :
  register_categories url categories a =
  (Ok tt, set_banner_categories (λ d, foldl (add_url url) d categories) a).
Proof.
  revert a. induction categories as [|c cs IH]; intros a.
  - by destruct a.
  - cbn [register_categories]. unfold mbind, M_bind, bind, register_category, modify.
    rewrite IH. destruct a as [urls shows d last].
    unfold set_banner_categories. cbn [banner_urls banner_shows banner_categories
      last_banners foldl]. do 2 f_equal.
    unfold add_url at 3, defaultdict_getitem.
    destruct (d !! c); [done|]. by rewrite insert_insert_eq.
Qed.

Lemma read_row_run row a :
  read_row row a =
  match row with
  | url :: field :: categories =>
      match py_int field with
      | Ok shows => (Ok tt, after_row url shows categories a)
      | Raise e => (Raise e, a)
      end
  | _ => (Raise IndexError, a)
  end.
Proof.
  unfold read_row, mbind, M_bind, bind, lift.
  destruct row as [|url [|field categories]]; [done..|].
  change (list_getitem (url :: field :: categories) 0) with (Ok (A := string) url).
  change (list_getitem (url :: field :: categories) 1) with (Ok (A := string) field).
  cbv iota beta. destruct (py_int field) as [shows|e]; [|done].
  unfold modify. rewrite register_categories_run. by destruct a.
Qed.

Lemma add_url_registered url d categories category :
  default [] (foldl (add_url url) d categories !! category) =
  default [] (d !! category) ++ ((λ _, url) <$> filter (λ c, c = category) categories).
Proof.
  revert d. induction categories as [|c cs IH]; intros d; cbn [foldl].
  - by rewrite filter_nil, fmap_nil, app_nil_r.
  - rewrite IH. unfold add_url. destruct (decide (c = category)) as [->|Hne].
    + rewrite lookup_insert_eq, filter_cons_True by done. simpl.
      by rewrite <- app_assoc.
    + rewrite lookup_insert_ne, filter_cons_False by done. done.
Qed.

Lemma read_rows_run rows a a' :
  read_rows rows a = (Ok tt, a') →
  banner_urls a' = banner_urls a ++ omap row_url rows ∧
  Forall (λ row, is_Some (row_url row) ∧ is_Some (row_budget row)) rows ∧
  (∀ url, banner_shows a' !! url =
          match last (records_of url rows) with
          | Some row => row_budget row
          | None => banner_shows a !! url
          end) ∧
  (∀ category, registered a' category =
               registered a category ++ rows ≫= row_memberships category) ∧
  last_banners a' = last_banners a.
Proof.
  revert a. induction rows as [|row rows IH]; intros a.
  - intros [= <-]. simpl. rewrite app_nil_r. repeat split; auto.
    intros c. by rewrite app_nil_r.
  - cbn [read_rows]. unfold mbind, M_bind, bind. rewrite read_row_run.
    destruct row as [|url [|field categories]]; [done..|].
    destruct (py_int field) as [shows|e] eqn:Hint; [|done].
    intros (Hurls & Hall & Hshows & Hcats & Hlast)%IH.
    assert (row_budget (url :: field :: categories) = Some shows) as Hb.
    { unfold row_budget. simpl. by rewrite Hint. }
    split; [|split; [|split; [|split]]].
    + rewrite Hurls. simpl. by rewrite <- app_assoc.
    + constructor; [|done]. split; [by eexists | by rewrite Hb].
    + intros u. rewrite Hshows. unfold records_of. simpl.
      destruct (decide (url = u)) as [->|Hne].
      * rewrite filter_cons_True by done. rewrite last_cons.
        destruct (last (filter _ rows)); [done|].
        by rewrite lookup_insert_eq, Hb.
      * rewrite filter_cons_False by (unfold row_url; simpl; congruence).
        destruct (last (filter _ rows)); [done|].
        by rewrite lookup_insert_ne.
    + intros c. rewrite Hcats. unfold registered at 1. simpl.
      rewrite add_url_registered. unfold registered.
      by rewrite <- app_assoc.
    + by rewrite Hlast.
Qed.

Lemma read_rows_raise rows a :
  Exists (λ row, (length row < 2)%nat ∨
                 ∃ field e, row !! 1%nat = Some field ∧ py_int field = Raise e) rows →
  ∃ e a', read_rows rows a = (Raise e, a').
Proof.
  intros Hbad. revert a. induction Hbad as [row rows Hrow|row rows _ IH]; intros a.
  - cbn [read_rows]. unfold mbind, M_bind, bind. rewrite read_row_run.
    destruct row as [|url [|field categories]]; [by eauto..|].
    destruct Hrow as [Hlen|(f & e & [= <-] & He)]; [simpl in Hlen; lia|].
    rewrite He. eauto.
  - cbn [read_rows]. unfold mbind, M_bind, bind.
    destruct (read_row row a) as [[[]|e] a1]; [apply IH | eauto].
Qed.

(** ** The show counts cover the banners *)

Lemma ledger_covers_alt app :
  ledger_covers app ↔
  (∀ url, url ∈ banner_urls app → is_Some (banner_shows app !! url)) ∧
  (∀ category url, url ∈ registered app category → is_Some (banner_shows app !! url)).
Proof.
  unfold ledger_covers, registered. rewrite Forall_forall, map_Forall_lookup.
  split; intros [Hu Hc]; (split; [done|]).
  - intros c url. destruct (banner_categories app !! c) as [l|] eqn:E; simpl.
    + specialize (Hc c l E). rewrite Forall_forall in Hc. auto.
    + by intros ?%elem_of_nil.
  - intros c l E. apply Forall_forall. intros url Hin. apply (Hc c). by rewrite E.
Qed.

Lemma elem_of_records_of url row rows :
  row ∈ records_of url rows ↔ row_url row = Some url ∧ row ∈ rows.
Proof. unfold records_of. by rewrite list_elem_of_filter. Qed.

Lemma last_records_of url row rows :
  row ∈ rows → row_url row = Some url →
  ∃ row', last (records_of url rows) = Some row' ∧ row' ∈ rows.
Proof.
  intros Hin Hurl.
  destruct (last (records_of url rows)) as [row'|] eqn:E.
  - exists row'. split; [done|].
    apply last_Some in E as [l' E].
    assert (row' ∈ records_of url rows) as Hr by (rewrite E; set_solver).
    by apply elem_of_records_of in Hr as [_ ?].
  - apply last_None in E.
    assert (row ∈ records_of url rows) as Hr by (by apply elem_of_records_of).
    rewrite E in Hr. by apply elem_of_nil in Hr.
Qed.

Lemma Application_init_run rows app :
  Application_init rows = Ok app →
  read_rows rows empty_application = (Ok tt, app).
Proof.
  unfold Application_init, read_config.
  destruct (read_rows rows empty_application) as [[[]|e] a] eqn:E; [|done].
  intros [= <-]. f_equal.
  apply read_rows_run in E as (_ & _ & _ & _ & Hlast).
  destruct a as [? ? ? last]. simpl in Hlast. by subst last.
Qed.

Lemma Application_init_covers rows app :
  Application_init rows = Ok app → ledger_covers app.
Proof.
  intros (Hurls & Hall & Hshows & Hcats & _)%Application_init_run%read_rows_run.
  rewrite Forall_forall in Hall.
  assert (∀ row url, row ∈ rows → row_url row = Some url →
                     is_Some (banner_shows app !! url)) as Hrow.
  { intros row url Hin Hurl. rewrite Hshows.
    destruct (last_records_of url row rows Hin Hurl) as (row' & -> & Hin').
    by apply Hall. }
  apply ledger_covers_alt. split.
  - intros url. rewrite Hurls. simpl. rewrite list_elem_of_omap.
    intros (row & ? & ?). eauto.
  - intros c url. rewrite Hcats.
    assert (registered empty_application c = []) as ->
      by (unfold registered; simpl; by rewrite lookup_empty).
    rewrite app_nil_l, list_elem_of_bind. intros (row & Hm & Hin).
    unfold row_memberships in Hm. destruct (row_url row) as [u|] eqn:Hu.
    + apply list_elem_of_fmap in Hm as (? & -> & _). eauto.
    + by apply elem_of_nil in Hm.
Qed.

Section Invariant.
Context `{SetOrder}.

Lemma ledger_covers_candidates app categories :
  ledger_covers app →
  Forall (λ url, is_Some (banner_shows app !! url)) (candidates app categories).
Proof.
  intros [Hu Hc]%ledger_covers_alt. apply Forall_forall. intros url.
  rewrite elem_of_candidates. destruct categories as [|c cs]; simpl; [by auto|].
  intros (c' & _ & ?). eauto.
Qed.

Lemma ledger_covers_eligible app req :
  ledger_covers app → ∃ l, eligible app req = Ok l.
Proof.
  intros Hcov. rewrite eligible_eq, budget_eligible_eq.
  destruct (positive_shows_ok (banner_shows app) (candidates app (request_categories req)))
    as [l ->]; [by apply ledger_covers_candidates|].
  destruct (without_last_banner_run l (new_handler (after_lookups app req) req))
    as (r & -> & _). by exists r.
Qed.

Lemma after_lookups_covers app req :
  ledger_covers app → ledger_covers (after_lookups app req).
Proof.
  rewrite !ledger_covers_alt. intros [Hu Hc]. split; [done|].
  intros c url. unfold registered, after_lookups. simpl.
  rewrite touched_default. apply Hc.
Qed.

Lemma after_show_covers app req target n :
  ledger_covers app → ledger_covers (after_show app req target n).
Proof.
  intros Hcov. apply (after_lookups_covers _ req) in Hcov.
  apply ledger_covers_alt in Hcov as [Hu Hc]. apply ledger_covers_alt.
  split; [intros url Hin|intros c url Hin]; simpl;
    (rewrite lookup_insert_is_Some;
     destruct (decide (target = url)); [by left | right; split; [done|]]).
  - by apply Hu.
  - by apply (Hc c).
Qed.

Lemma serve_covers app req seed :
  ledger_covers app → ledger_covers (serve app req seed).2.
Proof.
  intros Hcov. pose proof (serve_cases app req seed) as Hs.
  destruct (eligible app req) as [[|b bs]|e].
  - rewrite Hs. by apply after_lookups_covers.
  - destruct Hs as (target & n & _ & _ & _ & ->). by apply after_show_covers.
  - rewrite Hs. by apply after_lookups_covers.
Qed.

Lemma serve_all_covers app reqs :
  ledger_covers app → ledger_covers (serve_all app reqs).2.
Proof.
  revert app. induction reqs as [|[req seed] reqs IH]; intros app Hcov; [done|].
  cbn [serve_all]. pose proof (serve_covers app req seed Hcov) as Hc.
  destruct (serve app req seed) as [resp app1]. specialize (IH app1 Hc).
  destruct (serve_all app1 reqs). done.
Qed.

End Invariant.

(** ** The application of the examples *)

(** One order of iteration for the examples: that of a [gset] of
    strings. *)
Lemma gset_list_of_set_NoDup l : NoDup (gset_list_of_set l).
Proof. unfold gset_list_of_set. apply NoDup_elements. Qed.

Lemma gset_list_of_set_elem l x : x ∈ gset_list_of_set l ↔ x ∈ l.
Proof. unfold gset_list_of_set. by rewrite elem_of_elements, elem_of_list_to_set. Qed.

#[global] Instance gset_order : SetOrder :=
  {| list_of_set := gset_list_of_set;
     list_of_set_NoDup := gset_list_of_set_NoDup;
     list_of_set_elem := gset_list_of_set_elem |}.

Lemma demo_app_loaded : Application_init demo_rows = Ok demo_app.
Proof. reflexivity. Qed.

Lemma demo_app_covers : ledger_covers demo_app.
Proof. apply (bool_decide_unpack _). vm_compute. exact I. Defined.

(** ** The budget-eligible banners (C1) *)

Section C1.
Context `{SetOrder}.

(** C1. For every request against an application whose banners all have a
    show count (every loaded application, see [Application_init_covers]
    and [serve_all_covers]), the list filtered on the show counts, which
    is the one that goes through the anti-repetition step to the random
    choice, is computed without an exception; it has no repetition when
    categories are requested; and a banner is in it exactly when it is a
    candidate (registered under one of the requested categories, or any
    banner of the list when no category is requested) and its show count
    is strictly positive.  So it never holds a banner whose count is
    zero or less. *)
Theorem budget_eligible_set app req :
  ledger_covers app →
  ∃ l, budget_eligible app req = Ok l ∧
       eligible app req =
         (without_last_banner l (new_handler (after_lookups app req) req)).1 ∧
       (request_categories req ≠ [] → NoDup l) ∧
       (∀ url, url ∈ l ↔
               candidate app (request_categories req) url ∧
               has_budget (banner_shows app) url) ∧
       (∀ url n, url ∈ l → banner_shows app !! url = Some n → ¬ n ≤ 0).
Proof.
  intros Hcov.
  destruct (positive_shows_ok (banner_shows app) (candidates app (request_categories req)))
    as [l Hl]; [by apply ledger_covers_candidates|].
  exists l. rewrite eligible_eq, budget_eligible_eq, Hl.
  split; [done|]. split; [done|].
  apply positive_shows_filter in Hl. subst l.
  split; [|split].
  - intros Hne. apply NoDup_filter.
    destruct (request_categories req) as [|c cs]; [done|]. apply list_of_set_NoDup.
  - intros url. rewrite list_elem_of_filter, elem_of_candidates. tauto.
  - intros url n [(m & Hm & Hpos) _]%list_elem_of_filter Hn. simplify_eq. lia.
Qed.

End C1.

Lemma budget_eligible_set_witness :
  ∃ l, budget_eligible demo_app (category_request "10.0.0.1" ["x"]) = Ok l ∧
       ("a.png" ∈ l ∧ "b.png" ∈ l ∧ "c.png" ∉ l).
Proof.
  destruct (budget_eligible_set (H := gset_order) demo_app
              (category_request "10.0.0.1" ["x"]) demo_app_covers)
    as (l & Hl & _ & _ & Hin & _).
  exists l. split; [exact Hl|].
  assert (registered demo_app "x" = ["a.png"; "b.png"]) as Hx by reflexivity.
  assert (request_categories (category_request "10.0.0.1" ["x"]) = ["x"]) as Hreq
    by reflexivity.
  split; [|split].
  - apply Hin. rewrite Hreq. split.
    + exists "x". split; [left | rewrite Hx; left].
    + exists 1. split; [reflexivity | lia].
  - apply Hin. rewrite Hreq. split.
    + exists "x". split; [left | rewrite Hx; right; left].
    + exists 1. split; [reflexivity | lia].
  - intros Hc. apply Hin in Hc as [(c & Hc & Hreg) _]. rewrite Hreq in Hc.
    apply list_elem_of_singleton in Hc. subst c. rewrite Hx in Hreg.
    apply elem_of_cons in Hreg as [Hreg|Hreg]; [discriminate|].
    apply list_elem_of_singleton in Hreg. discriminate.
Defined.

(** ** The page names its banner *)

Lemma string_length_app (s t : string) :
  String.length (s +:+ t) = (String.length s + String.length t)%nat.
Proof. induction s as [|a s IH]; simpl; [done | by rewrite IH]. Qed.

Lemma string_app_same_length (s s' t t' : string) :
  String.length s = String.length s' → s +:+ t = s' +:+ t' → s = s'.
Proof.
  revert s'. induction s as [|a s IH]; intros [|a' s']; simpl; try done.
  intros [= Hlen] [= -> Heq]. f_equal. by apply IH.
Qed.

Lemma banner_html_inj url url' : banner_html url = banner_html url' → url = url'.
Proof.
  intros Heq. apply (string_app_same_length _ _ _ _) in Heq; [done|].
  apply (f_equal String.length) in Heq. unfold banner_html, img_element in Heq.
  rewrite !string_length_app in Heq. lia.
Qed.

Lemma shows_banner_iff url resp :
  shows_banner url resp ↔ resp = mkResponse 200 (banner_html url).
Proof.
  unfold shows_banner. rewrite banner_wrapper_run. destruct resp as [s b]. simpl.
  split; [intros [-> [= ->]]; done | intros [= -> ->]; done].
Qed.

(** ** The last banner of the client (C2) *)

Section C2.
Context `{SetOrder}.

(** What holds of the anti-repetition step on a list without repetition,
    for a client whose last banner is not the empty string: alone in the
    list the last banner stays, otherwise it goes and the others stay. *)
Lemma last_banner_removed app req l last :
  budget_eligible app req = Ok l → NoDup l →
  last_banners app !! remote_ip req = Some last → last ≠ "" → last ∈ l →
  ∃ r, eligible app req = Ok r ∧
       ((l = [last] ∧ r = [last]) ∨
        (l ≠ [last] ∧ r ≠ [] ∧ (last ∉ r) ∧ ∀ url, url ∈ l → url ≠ last → url ∈ r)).
Proof.
  intros Hl Hnd Hlast Hne Hin. rewrite eligible_eq, Hl.
  destruct (without_last_banner_run l (new_handler (after_lookups app req) req))
    as (r & Hr & Hsub & Hnil & Hspare).
  rewrite Hr. exists r. split; [done|].
  destruct (Hspare last Hlast Hne Hin Hnd) as [[-> ->]|[Hout Hkeep]]; [by left|].
  right. split; [|split; [|done]].
  - intros ->. destruct r as [|y r]; [by specialize (Hnil eq_refl)|].
    assert (y ∈ [last]) as Hy by (apply Hsub; left).
    apply list_elem_of_singleton in Hy as ->. apply Hout. left.
  - intros ->. specialize (Hnil eq_refl). subst l. by apply elem_of_nil in Hin.
Qed.

(** C2, on the code.  Configuration: [a.png;5], [a.png;5], [b.png;5];
    two requests without category from the same address, the generator
    giving 0 both times.  The first answer shows [a.png]; at the second
    request the budget-eligible list is [a.png, a.png, b.png], the client's
    last banner [a.png] is in it, one occurrence is removed and the other
    stays, and the answer shows [a.png] again although [b.png] was
    there. *)
Theorem last_banner_shown_again :
  let req := category_request "10.0.0.1" [] in
  ∃ app1 app2,
    Application_init repeated_rows = Ok repeated_app ∧
    serve repeated_app req 0 = (mkResponse 200 (banner_html "a.png"), app1) ∧
    last_banners app1 !! "10.0.0.1" = Some "a.png" ∧
    budget_eligible app1 req = Ok ["a.png"; "a.png"; "b.png"] ∧
    eligible app1 req = Ok ["a.png"; "b.png"] ∧
    serve app1 req 0 = (mkResponse 200 (banner_html "a.png"), app2).
Proof.
  intros req. eexists _, _. 
  split; [reflexivity|]. split; [vm_compute; reflexivity|].
  split; [vm_compute; reflexivity|]. split; [vm_compute; reflexivity|].
  split; [vm_compute; reflexivity|]. vm_compute; reflexivity.
Qed.

(** The same with a banner whose identifier is the empty string (a row
    [;5]): as a last banner it counts as none. *)
Lemma empty_identifier_shown_again :
  let req := category_request "10.0.0.1" [] in
  ∃ app0 app1 app2,
    Application_init [[""; "5"]; ["b.png"; "5"]] = Ok app0 ∧
    serve app0 req 0 = (mkResponse 200 (banner_html ""), app1) ∧
    last_banners app1 !! "10.0.0.1" = Some "" ∧
    eligible app1 req = Ok [""; "b.png"] ∧
    serve app1 req 0 = (mkResponse 200 (banner_html ""), app2).
Proof.
  intros req. eexists _, _, _.
  split; [vm_compute; reflexivity|]. split; [vm_compute; reflexivity|].
  split; [vm_compute; reflexivity|]. split; [vm_compute; reflexivity|].
  vm_compute; reflexivity.
Qed.

End C2.

(** ** Rows that stop the loading (C3) *)

(** C3, counterexample: the single row [a.png;-5] has a negative budget
    and loads. *)
Lemma negative_budget_loads : ¬ fails_unless_nonneg [["a.png"; "-5"]].
Proof.
  intros Hfails. destruct Hfails as [e He].
  - left. right. intros (n & Hn & Hpos). vm_compute in Hn. simplify_eq. lia.
  - vm_compute in He. discriminate.
Qed.

Lemma negative_budget_loaded :
  ∃ app, Application_init [["a.png"; "-5"]] = Ok app ∧
         banner_shows app !! "a.png" = Some (-5).
Proof. eexists. split; [reflexivity | by vm_compute]. Qed.

(** C3, amended.  Loading fails whenever some row has fewer than two
    fields or a second field that does not parse as an integer; a sign
    is part of an integer, so a negative budget is accepted. *)
Theorem loading_fails_on_bad_row rows :
  Exists bad_row rows → loading_fails rows.
Proof.
  intros Hbad. destruct (read_rows_raise rows empty_application Hbad) as (e & a & He).
  exists e. unfold Application_init, read_config. by rewrite He.
Qed.

Lemma loading_fails_on_bad_row_witness : loading_fails [["a.png"; "3"]; ["b.png"]].
Proof.
  apply loading_fails_on_bad_row. right. left. left. simpl. lia.
Defined.

(** Nothing else stops it: rows of two fields or more whose second field
    parses are loaded. *)
Lemma loading_succeeds rows :
  Forall (λ row, ¬ bad_row row) rows → ∃ app, Application_init rows = Ok app.
Proof.
  intros Hgood. unfold Application_init, read_config.
  enough (∀ a, ∃ a', read_rows rows a = (Ok tt, a')) as Hrun.
  { destruct (Hrun empty_application) as [a' ->]. by eexists. }
  induction Hgood as [|row rows Hrow _ IH]; intros a; [by eexists|].
  cbn [read_rows]. unfold mbind, M_bind, bind. rewrite read_row_run.
  destruct row as [|url [|field categories]].
  - exfalso. apply Hrow. left. simpl. lia.
  - exfalso. apply Hrow. left. simpl. lia.
  - destruct (py_int field) as [n|e] eqn:E; [apply IH|].
    exfalso. apply Hrow. right. by exists field, e.
Qed.

(** ** Rows with the same identifier (C10) *)

Lemma omap_row_url_filter url rows :
  Forall (λ row, is_Some (row_url row)) rows →
  length (filter (λ u, u = url) (omap row_url rows)) = length (records_of url rows).
Proof.
  unfold records_of. induction 1 as [|row rows [u Hu] _ IH]; [done|].
  cbn [omap list_omap]. rewrite Hu. destruct (decide (u = url)) as [->|Hne].
  - rewrite !filter_cons_True by done. simpl. by rewrite <- IH.
  - rewrite !filter_cons_False by congruence. done.
Qed.

(** C10. After a configuration is loaded, whatever identifiers repeat in
    it: the list of banners has one entry per row, in order, so an
    identifier is in it once per row that carries it; the show count of
    an identifier is the budget of the last row that carries it; and
    the banners registered under a category are, row after row, the
    identifier of the row once for every time the row names the
    category. *)
Theorem repeated_identifiers rows app :
  Application_init rows = Ok app →
  banner_urls app = omap row_url rows ∧
  length (banner_urls app) = length rows ∧
  (∀ url, length (filter (λ u, u = url) (banner_urls app)) = length (records_of url rows)) ∧
  (∀ url, banner_shows app !! url = last (records_of url rows) ≫= row_budget) ∧
  (∀ category, registered app category = rows ≫= row_memberships category).
Proof.
  intros (Hurls & Hall & Hshows & Hcats & _)%Application_init_run%read_rows_run.
  simpl in Hurls.
  assert (Forall (λ row, is_Some (row_url row)) rows) as Hrows
    by (eapply Forall_impl; [exact Hall | by intros ? [? _]]).
  split; [done|]. split; [|split; [|split]].
  - rewrite Hurls. clear -Hrows. induction Hrows as [|row rows [u Hu] _ IH]; [done|].
    cbn [omap list_omap]. rewrite Hu. simpl. by rewrite <- IH.
  - intros url. rewrite Hurls. by apply omap_row_url_filter.
  - intros url. rewrite Hshows. destruct (last (records_of url rows)); [done|].
    apply lookup_empty.
  - intros c. rewrite Hcats.
    assert (registered empty_application c = []) as ->
      by (unfold registered; simpl; by rewrite lookup_empty).
    done.
Qed.

Lemma repeated_identifiers_witness :
  ∃ app,
    Application_init [["a.png"; "5"; "x"]; ["b.png"; "2"]; ["a.png"; "7"; "x"; "y"]] = Ok app ∧
    banner_urls app = ["a.png"; "b.png"; "a.png"] ∧
    banner_shows app !! "a.png" = Some 7 ∧
    registered app "x" = ["a.png"; "a.png"].
Proof.
  eexists. split; [reflexivity|].
  destruct (repeated_identifiers
              [["a.png"; "5"; "x"]; ["b.png"; "2"]; ["a.png"; "7"; "x"; "y"]] _ eq_refl)
    as (Hurls & _ & _ & Hshows & Hcats).
  split; [exact Hurls|]. split; [exact (Hshows "a.png") | exact (Hcats "x")].
Defined.

(** ** What a request does to the show counts and to the history *)

Section Requests.
Context `{SetOrder}.

Lemma eligible_elem app req r url :
  eligible app req = Ok r → url ∈ r →
  candidate app (request_categories req) url ∧ has_budget (banner_shows app) url.
Proof.
  rewrite eligible_eq, budget_eligible_eq.
  destruct (positive_shows _ _) as [l|e] eqn:Hl; [|done].
  apply positive_shows_filter in Hl.
  destruct (without_last_banner_run l (new_handler (after_lookups app req) req))
    as (r' & Hr & Hsub & _). rewrite Hr. intros [= <-] Hin%Hsub.
  rewrite Hl, list_elem_of_filter, elem_of_candidates in Hin. tauto.
Qed.

Lemma eligible_nil app req :
  budget_eligible app req = Ok [] → eligible app req = Ok [].
Proof.
  intros Hl. rewrite eligible_eq, Hl.
  destruct (without_last_banner_run [] (new_handler (after_lookups app req) req))
    as (r & -> & Hsub & _). simpl. destruct r as [|y r]; [done|].
  specialize (Hsub y). rewrite elem_of_cons, elem_of_nil in Hsub. exfalso. auto.
Qed.

(** Without a candidate that has budget left, nothing is eligible. *)
Lemma exhausted_eligible_nil app req :
  (∀ url, candidate app (request_categories req) url → is_Some (banner_shows app !! url)) →
  (∀ url, candidate app (request_categories req) url → ¬ has_budget (banner_shows app) url) →
  eligible app req = Ok [].
Proof.
  intros Hcov Hnone. apply eligible_nil. rewrite budget_eligible_eq.
  destruct (positive_shows_ok (banner_shows app) (candidates app (request_categories req)))
    as [l Hl].
  { apply Forall_forall. intros url Hin%elem_of_candidates. auto. }
  rewrite Hl. f_equal. apply positive_shows_filter in Hl.
  destruct l as [|url l]; [done|].
  assert (url ∈ filter (has_budget (banner_shows app))
                  (candidates app (request_categories req))) as Hin
    by (rewrite <- Hl; left).
  apply list_elem_of_filter in Hin as [Hb Hc%elem_of_candidates].
  by apply Hnone in Hc.
Qed.

Lemma not_found_run app req seed :
  eligible app req = Ok [] → serve app req seed = (not_found, after_lookups app req).
Proof. intros He. pose proof (serve_cases app req seed) as Hs. by rewrite He in Hs. Qed.

(** A request leaves a show count as it is, or takes one from a count
    that is strictly positive: that of the banner it shows. *)
Lemma serve_shows_step app req seed url n :
  banner_shows app !! url = Some n →
  let '(resp, app') := serve app req seed in
  (¬ shows_banner url resp ∧ banner_shows app' !! url = Some n) ∨
  (shows_banner url resp ∧ 0 < n ∧ banner_shows app' !! url = Some (n - 1)).
Proof.
  intros Hn. pose proof (serve_cases app req seed) as Hs.
  destruct (eligible app req) as [[|b bs]|e].
  - rewrite Hs. left. split; [|done]. by intros [[=] _].
  - destruct Hs as (target & m & _ & Hm & Hpos & ->).
    destruct (decide (target = url)) as [->|Hne].
    + right. simplify_eq. split; [by apply shows_banner_iff|]. split; [done|].
      simpl. by rewrite lookup_insert_eq.
    + left. split.
      * intros [= Heq%banner_html_inj]%shows_banner_iff. done.
      * simpl. by rewrite lookup_insert_ne.
  - rewrite Hs. left. split; [|done]. by intros [[=] _].
Qed.

Lemma selections_cons url resp resps :
  selections url (resp :: resps) =
  (if decide (shows_banner url resp) then 1 else 0) + selections url resps.
Proof.
  unfold selections. destruct (decide (shows_banner url resp)).
  - rewrite filter_cons_True by done. simpl length. lia.
  - rewrite filter_cons_False by done. lia.
Qed.

Lemma serve_all_shows app reqs url n :
  banner_shows app !! url = Some n →
  let '(resps, app') := serve_all app reqs in
  banner_shows app' !! url = Some (n - selections url resps) ∧
  (0 ≤ n → 0 ≤ n - selections url resps).
Proof.
  revert app n. induction reqs as [|[req seed] reqs IH]; intros app n Hn.
  - simpl. unfold selections. simpl. rewrite Z.sub_0_r. done.
  - cbn [serve_all]. pose proof (serve_shows_step app req seed url n Hn) as Hstep.
    destruct (serve app req seed) as [resp app1].
    destruct Hstep as [[Hno Hn1]|(Hyes & Hpos & Hn1)];
      specialize (IH app1 _ Hn1); destruct (serve_all app1 reqs) as [resps app2];
      rewrite selections_cons; destruct IH as [IH1 IH2].
    + rewrite decide_False by done. rewrite Z.add_0_l. done.
    + rewrite decide_True by done. split; [rewrite IH1; f_equal; lia | lia].
Qed.

End Requests.

(** ** The budget of a banner (C4) *)

Section C4.
Context `{SetOrder}.

(** C4. Let banner [X] have the show count [B] and let any run of
    requests follow, [N] of whose answers show [X].  Then the count of
    [X] is [B - N]; [N] does not exceed a budget [B] that is not
    negative; and once [N = B] the banner is eligible for no request, and
    a request whose candidates are at most [X] is answered "Not found". *)
Theorem budget_spent app X B reqs :
  banner_shows app !! X = Some B →
  let resps := (serve_all app reqs).1 in
  let app' := (serve_all app reqs).2 in
  let N := selections X resps in
  banner_shows app' !! X = Some (B - N) ∧
  (0 ≤ B → N ≤ B) ∧
  (N = B → ∀ req seed,
     (∀ r, eligible app' req = Ok r → X ∉ r) ∧
     ((∀ url, candidate app' (request_categories req) url → url = X) →
      (serve app' req seed).1 = not_found)).
Proof.
  intros HB. pose proof (serve_all_shows app reqs X B HB) as Hrun.
  destruct (serve_all app reqs) as [resps app']. cbn [fst snd].
  destruct Hrun as [Hcount Hnonneg].
  split; [done|]. split; [intros ?%Hnonneg; lia|].
  intros HN req seed. rewrite HN, Z.sub_diag in Hcount.
  assert (¬ has_budget (banner_shows app') X) as Hout
    by (intros (n & Hn & Hpos); simplify_eq; lia).
  split.
  - intros r Hr Hin. by apply (eligible_elem _ _ _ _ Hr) in Hin as [_ ?].
  - intros Honly. rewrite not_found_run; [done|].
    apply exhausted_eligible_nil; intros url ->%Honly; [by eexists | done].
Qed.

End C4.

Lemma budget_spent_witness :
  let reqs := [(category_request "10.0.0.1" ["x"], 0); (category_request "10.0.0.2" ["x"], 0)] in
  banner_shows (serve_all (H := gset_order) spent_app reqs).2 !! "a.png" = Some 0 ∧
  (serve (H := gset_order) (serve_all (H := gset_order) spent_app reqs).2
     (category_request "10.0.0.3" ["x"]) 0).1 = not_found.
Proof.
  intros reqs.
  destruct (budget_spent (H := gset_order) spent_app "a.png" 2 reqs) as (Hcount & _ & Hout).
  { by vm_compute. }
  split; [exact Hcount|].
  apply (Hout eq_refl (category_request "10.0.0.3" ["x"]) 0).
  intros url (c & Hc & Hreg). apply list_elem_of_singleton in Hc as ->.
  vm_compute in Hreg. by apply list_elem_of_singleton in Hreg.
Defined.

(** ** Counts are taken from positive counts only (C5) *)

Section C5.
Context `{SetOrder}.

(** C5. A request changes a show count only by taking one from a count
    that is strictly positive when the request is handled; and along any
    run of requests a count that is not negative stays so, and never
    grows. *)
Theorem counts_stay_nonnegative app url n :
  banner_shows app !! url = Some n →
  (∀ req seed,
     banner_shows (serve app req seed).2 !! url = Some n ∨
     (0 < n ∧ banner_shows (serve app req seed).2 !! url = Some (n - 1))) ∧
  (∀ reqs, 0 ≤ n →
     ∃ n', banner_shows (serve_all app reqs).2 !! url = Some n' ∧ 0 ≤ n' ≤ n).
Proof.
  intros Hn. split.
  - intros req seed. pose proof (serve_shows_step app req seed url n Hn) as Hstep.
    destruct (serve app req seed) as [resp app']. cbn [snd]. tauto.
  - intros reqs Hpos. pose proof (serve_all_shows app reqs url n Hn) as Hrun.
    destruct (serve_all app reqs) as [resps app']. cbn [snd].
    destruct Hrun as [Hcount Hnonneg]. eexists. split; [done|].
    split; [auto|]. unfold selections. lia.
Qed.

End C5.

Lemma counts_stay_nonnegative_witness :
  ∃ n', banner_shows
          (serve_all (H := gset_order) demo_app
             [(category_request "10.0.0.1" ["x"], 0); (category_request "10.0.0.1" [], 5)]).2
          !! "a.png" = Some n' ∧ 0 ≤ n' ≤ 1.
Proof.
  refine (proj2 (counts_stay_nonnegative (H := gset_order) demo_app "a.png" 1 _) _ _).
  - by vm_compute.
  - lia.
Defined.

(** ** A request that finds nothing (C6) *)

Section C6.
Context `{SetOrder}.

(** C6. When no candidate of the request has budget left (no banner is
    registered under the requested categories, or every candidate has a
    count of zero or less), nothing is eligible, the answer is "Not found"
    with status 404 and no exception, and the show counts, the client
    history and the list of banners are what they were. *)
Theorem not_found_keeps_state app req seed :
  ledger_covers app →
  (∀ url, candidate app (request_categories req) url →
          ¬ has_budget (banner_shows app) url) →
  eligible app req = Ok [] ∧
  (serve app req seed).1 = mkResponse 404 "Not found" ∧
  banner_shows (serve app req seed).2 = banner_shows app ∧
  last_banners (serve app req seed).2 = last_banners app ∧
  banner_urls (serve app req seed).2 = banner_urls app.
Proof.
  intros Hcov Hnone.
  assert (eligible app req = Ok []) as He.
  { apply exhausted_eligible_nil; [|done].
    intros url Hc%elem_of_candidates.
    pose proof (ledger_covers_candidates app (request_categories req) Hcov) as Hall.
    rewrite Forall_forall in Hall. auto. }
  split; [done|]. by rewrite (not_found_run _ _ _ He).
Qed.

End C6.

Lemma not_found_keeps_state_witness :
  (serve (H := gset_order) demo_app (category_request "10.0.0.1" ["z"]) 3).1
  = mkResponse 404 "Not found".
Proof.
  refine (proj1 (proj2 (not_found_keeps_state (H := gset_order) demo_app
                          (category_request "10.0.0.1" ["z"]) 3 demo_app_covers _))).
  intros url (c & Hc & Hreg). apply list_elem_of_singleton in Hc as ->.
  vm_compute in Hreg. by apply elem_of_nil in Hreg.
Defined.

(** ** The inventory across a request (C7) *)

(** C7, counterexample: after a request for the category [y], which no
    row of the configuration names, the index has the key [y]. *)
Lemma unknown_category_enters_index :
  ¬ inventory_unchanged (H := gset_order) demo_app (category_request "10.0.0.1" ["y"]) 0.
Proof.
  intros [_ Hidx]. apply (f_equal (λ d, d !! "y")) in Hidx.
  vm_compute in Hidx. discriminate.
Qed.

Section C7.
Context `{SetOrder}.

(** C7, amended.  A request leaves the list of banners as it is, and the
    banners registered under every label as they are (none for a label
    that is not a key).  The keys of the index grow: every entry stays,
    and each requested label that was not a key becomes one, with the
    empty list. *)
Theorem inventory_across_request app req seed :
  banner_urls (serve app req seed).2 = banner_urls app ∧
  (∀ category,
     registered (serve app req seed).2 category = registered app category) ∧
  (∀ category,
     banner_categories (serve app req seed).2 !! category =
     match banner_categories app !! category with
     | Some l => Some l
     | None => if decide (category ∈ request_categories req) then Some [] else None
     end).
Proof.
  assert (banner_urls (serve app req seed).2 = banner_urls app ∧
          banner_categories (serve app req seed).2 =
          touched (request_categories req) (banner_categories app)) as [Hurls Hidx].
  { pose proof (serve_cases app req seed) as Hs.
    destruct (eligible app req) as [[|b bs]|e].
    - by rewrite Hs.
    - destruct Hs as (target & n & _ & _ & _ & ->). done.
    - by rewrite Hs. }
  split; [done|]. split; intros c.
  - unfold registered. rewrite Hidx. apply touched_default.
  - rewrite Hidx. apply touched_lookup.
Qed.

End C7.

(** ** A category that is not registered (C8) *)

Section C8.
Context `{SetOrder}.

(** C8. A requested label that is not a key of the index gives the empty
    list and no exception; the candidates of the request are the banners
    registered under the other requested labels, the budget-eligible ones
    those among them with budget left, and the request is answered
    without an error. *)
Theorem unknown_category_gives_nothing app req category :
  ledger_covers app →
  category ∈ request_categories req →
  banner_categories app !! category = None →
  (banners_of_category category (new_handler app req)).1 = Ok [] ∧
  (∃ l, (category_banners (request_categories req) (new_handler app req)).1 = Ok l ∧
        ∀ url, url ∈ l ↔
               ∃ c, c ∈ request_categories req ∧ c ≠ category ∧ url ∈ registered app c) ∧
  (∃ l, budget_eligible app req = Ok l ∧
        ∀ url, url ∈ l ↔
               (∃ c, c ∈ request_categories req ∧ c ≠ category ∧ url ∈ registered app c) ∧
               has_budget (banner_shows app) url) ∧
  (∀ seed, status (serve app req seed).1 ≠ 500).
Proof.
  intros Hcov Hin Hnone.
  assert (∀ url, candidate app (request_categories req) url ↔
                 ∃ c, c ∈ request_categories req ∧ c ≠ category ∧ url ∈ registered app c)
    as Hcand.
  { intros url. unfold candidate.
    destruct (request_categories req) as [|c0 cs] eqn:E; [by apply elem_of_nil in Hin|].
    split.
    - intros (c & Hc & Hreg). exists c. split; [done|]. split; [|done].
      intros ->. unfold registered in Hreg. rewrite Hnone in Hreg.
      by apply elem_of_nil in Hreg.
    - intros (c & Hc & _ & Hreg). by exists c. }
  split; [|split; [|split]].
  - unfold banners_of_category, defaultdict_getitem. simpl. by rewrite Hnone.
  - rewrite category_banners_run. eexists. split; [done|].
    intros url. simpl. by rewrite elem_of_candidates.
  - rewrite budget_eligible_eq.
    destruct (positive_shows_ok (banner_shows app) (candidates app (request_categories req)))
      as [l Hl]; [by apply ledger_covers_candidates|].
    exists l. split; [done|]. apply positive_shows_filter in Hl. subst l.
    intros url. rewrite list_elem_of_filter, elem_of_candidates, Hcand. tauto.
  - intros seed. pose proof (serve_cases app req seed) as Hs.
    destruct (ledger_covers_eligible app req Hcov) as [r Hr]. rewrite Hr in Hs.
    destruct r as [|b bs]; [by rewrite Hs|].
    destruct Hs as (target & n & _ & _ & _ & ->). done.
Qed.

End C8.

Lemma unknown_category_gives_nothing_witness :
  ∃ l, budget_eligible (H := gset_order) demo_app (category_request "10.0.0.1" ["y"; "x"]) = Ok l ∧
       "a.png" ∈ l.
Proof.
  destruct (unknown_category_gives_nothing (H := gset_order) demo_app
              (category_request "10.0.0.1" ["y"; "x"]) "y" demo_app_covers)
    as (_ & _ & (l & Hl & Hin) & _).
  - vm_compute. by left.
  - by vm_compute.
  - exists l. split; [exact Hl|]. apply Hin. split.
    + exists "x". split; [vm_compute; right; by left|]. split; [done|].
      vm_compute. by left.
    + exists 1. split; [reflexivity | lia].
Defined.

(** ** The page of a banner (C9) *)

(** C9, counterexample: the page of [a.png] is not as claimed; it has no
    link, and the alternate text of its image is [Banner]. *)
Lemma page_not_as_claimed : ¬ renders_as_claimed "a.png".
Proof.
  intros (page & Hpage & Hlink & _). rewrite banner_wrapper_run in Hpage.
  injection Hpage as <-. vm_compute in Hlink. discriminate.
Qed.

Lemma page_has_no_link :
  ∃ page, banner_wrapper "a.png" = Ok page ∧
          occurs_in "href" page = false ∧ occurs_in "Banner." page = false.
Proof. eexists. split; [apply banner_wrapper_run|]. split; by vm_compute. Qed.

Lemma string_prefix_refl s : String.prefix s s = true.
Proof.
  induction s as [|a s IH]; [done|]. cbn [String.prefix].
  destruct (Ascii.ascii_dec a a); [done | congruence].
Qed.

Lemma occurs_in_unfold needle hay :
  occurs_in needle hay =
  String.prefix needle hay ||
  match hay with
  | String _ rest => occurs_in needle rest
  | EmptyString => false
  end.
Proof. by destruct hay. Qed.

Lemma occurs_in_app needle s : occurs_in needle (s +:+ needle) = true.
Proof.
  induction s as [|a s IH].
  - change ("" +:+ needle) with needle.
    rewrite occurs_in_unfold. by rewrite string_prefix_refl.
  - change (String a s +:+ needle) with (String a (s +:+ needle)).
    rewrite occurs_in_unfold, IH. apply orb_true_r.
Qed.

(** C9, amended.  The page of a banner is its identifier as plain text
    followed by one image element whose source is the identifier and
    whose alternate text is [Banner]; rendering raises no exception. *)
Theorem banner_page banner_url :
  banner_wrapper banner_url = Ok (banner_url +:+ img_element banner_url "Banner") ∧
  occurs_in (img_element banner_url "Banner")
    (banner_url +:+ img_element banner_url "Banner") = true.
Proof. split; [apply banner_wrapper_run | apply occurs_in_app]. Qed.

(** ** Further properties of the handler *)

(** X1. [choose_banner] on a list that is not empty returns one of its
    elements whatever the generator gives, and every element of the list
    is returned for some value of the generator; on the empty list it
    raises [ValueError], the range of [randint] being empty. *)
Theorem choose_banner_member seed banners :
  choose_banner seed [] = Raise (ValueError "empty range for randrange()") ∧
  (banners ≠ [] →
   (∃ target, choose_banner seed banners = Ok target ∧ target ∈ banners) ∧
   (∀ target, target ∈ banners → ∃ seed', choose_banner seed' banners = Ok target)).
Proof.
  split; [reflexivity|]. intros Hne. split; [by apply choose_banner_elem|].
  intros target [i Hi]%list_elem_of_lookup_1.
  exists (Z.of_nat i). by apply choose_banner_any.
Qed.

Lemma choose_banner_member_witness :
  ∃ target, choose_banner 7 ["a.png"; "b.png"; "c.png"] = Ok target ∧
            target ∈ ["a.png"; "b.png"; "c.png"].
Proof.
  apply (choose_banner_member 7 ["a.png"; "b.png"; "c.png"]). discriminate.
Defined.

Section Answers.
Context `{SetOrder}.

(** The answer of a request and the state it leaves, by the list given
    to the random choice. *)
Lemma serve_shown app req seed :
  match eligible app req with
  | Raise e => serve app req seed = (mkResponse 500 "", after_lookups app req)
  | Ok [] => serve app req seed = (not_found, after_lookups app req)
  | Ok (b :: bs) =>
      ∃ target n, target ∈ b :: bs ∧
                  banner_shows app !! target = Some n ∧ 0 < n ∧
                  serve app req seed =
                  (mkResponse 200 (banner_html target), after_show app req target n)
  end.
Proof.
  pose proof (serve_cases app req seed) as Hs.
  destruct (eligible app req) as [[|b bs]|e]; [done| |done].
  destruct Hs as (target & n & Hc & Hn & Hpos & Hs).
  destruct (choose_banner_elem seed (b :: bs)) as (target' & Hc' & Hin); [done|].
  rewrite Hc in Hc'. injection Hc' as <-. by exists target, n.
Qed.

(** X2. A request that shows a banner records it as the last banner of
    the address of the client; a request that shows none leaves the
    history as it is; and the entries of the other addresses are never
    touched. *)
Theorem history_after_request app req seed :
  (∀ url, shows_banner url (serve app req seed).1 →
          last_banners (serve app req seed).2 !! remote_ip req = Some url) ∧
  ((∀ url, ¬ shows_banner url (serve app req seed).1) →
   last_banners (serve app req seed).2 = last_banners app) ∧
  (∀ ip, ip ≠ remote_ip req →
         last_banners (serve app req seed).2 !! ip = last_banners app !! ip).
Proof.
  pose proof (serve_shown app req seed) as Hs.
  destruct (eligible app req) as [[|b bs]|e].
  - rewrite Hs. cbn [fst snd]. split; [|done]. by intros url [[=] _].
  - destruct Hs as (target & n & _ & _ & _ & ->). cbn [fst snd].
    split; [|split].
    + intros url [= ->%banner_html_inj]%shows_banner_iff.
      simpl. apply lookup_insert_eq.
    + intros Hnone. exfalso. apply (Hnone target). by apply shows_banner_iff.
    + intros ip Hne. simpl. by rewrite lookup_insert_ne.
  - rewrite Hs. cbn [fst snd]. split; [|done]. by intros url [[=] _].
Qed.

(** Once the categories are decoded: a banner is shown exactly when a
    candidate has budget left, and "Not found" is the answer otherwise. *)
Lemma decoded_shown_iff_budget app req seed :
  ledger_covers app →
  ((∃ url, shows_banner url (serve app req seed).1) ↔
   (∃ url, candidate app (request_categories req) url ∧
           has_budget (banner_shows app) url)) ∧
  (∀ url, shows_banner url (serve app req seed).1 →
          candidate app (request_categories req) url ∧
          has_budget (banner_shows app) url) ∧
  ((∀ url, ¬ shows_banner url (serve app req seed).1) →
   (serve app req seed).1 = not_found).
Proof.
  intros Hcov. pose proof (serve_shown app req seed) as Hs.
  destruct (ledger_covers_eligible app req Hcov) as [r Hr]. rewrite Hr in Hs.
  destruct r as [|b bs].
  - rewrite Hs. cbn [fst]. split; [|split; [|done]].
    + split; [by intros (url & [=] & _)|]. intros (url & Hc & Hb). exfalso.
      revert Hr. rewrite eligible_eq, budget_eligible_eq.
      destruct (positive_shows _ _) as [l|e] eqn:Hl; [|done].
      apply positive_shows_filter in Hl.
      destruct (without_last_banner_run l (new_handler (after_lookups app req) req))
        as (r & -> & _ & Hnil & _). intros [= ->]. specialize (Hnil eq_refl).
      assert (url ∈ l) as Hin
        by (rewrite Hl; apply list_elem_of_filter; by rewrite elem_of_candidates).
      rewrite Hnil in Hin. by apply elem_of_nil in Hin.
    + by intros url [[=] _].
  - destruct Hs as (target & n & Hin & Hn & Hpos & ->). cbn [fst].
    pose proof (eligible_elem app req _ _ Hr Hin) as Htarget.
    split; [|split].
    + split; [by exists target|]. intros _. exists target. by apply shows_banner_iff.
    + by intros url [= ->%banner_html_inj]%shows_banner_iff.
    + intros Hnone. exfalso. apply (Hnone target). by apply shows_banner_iff.
Qed.

End Answers.

Lemma history_after_request_witness :
  last_banners (serve (H := gset_order) demo_app (category_request "10.0.0.1" []) 2).2
    !! "10.0.0.1" = Some "c.png".
Proof.
  apply (proj1 (history_after_request (H := gset_order) demo_app
                  (category_request "10.0.0.1" []) 2)).
  apply (bool_decide_unpack _). vm_compute. exact I.
Defined.

(** ** The budget over a run *)

Lemma budget_left_fresh shows url n :
  shows !! url = None → budget_left (<[url := n]> shows) = Z.max 0 n + budget_left shows.
Proof.
  intros Hnone. unfold budget_left.
  apply (map_fold_insert_L (λ _ n acc, Z.max 0 n + acc)); [|done].
  intros. lia.
Qed.

Lemma budget_left_insert shows url n m :
  shows !! url = Some n →
  budget_left (<[url := m]> shows) = budget_left shows - Z.max 0 n + Z.max 0 m.
Proof.
  intros Hn. rewrite <- (insert_delete_eq shows url m).
  rewrite <- (insert_delete_id shows url n Hn) at 2.
  rewrite !budget_left_fresh by apply lookup_delete_eq. lia.
Qed.

Lemma budget_left_nonneg shows : 0 ≤ budget_left shows.
Proof.
  unfold budget_left.
  apply (map_fold_weak_ind (λ r _, 0 ≤ r)); [done|]. intros. lia.
Qed.

Lemma banners_shown_cons resp resps :
  banners_shown (resp :: resps) =
  (if decide (status resp = 200) then 1 else 0) + banners_shown resps.
Proof.
  unfold banners_shown. destruct (decide (status resp = 200)).
  - rewrite filter_cons_True by done. simpl length. lia.
  - rewrite filter_cons_False by done. lia.
Qed.

Section Budget.
Context `{SetOrder}.

Lemma serve_budget_step app req seed :
  budget_left (banner_shows (serve app req seed).2) +
  (if decide (status (serve app req seed).1 = 200) then 1 else 0) =
  budget_left (banner_shows app).
Proof.
  pose proof (serve_shown app req seed) as Hs.
  destruct (eligible app req) as [[|b bs]|e].
  - rewrite Hs. cbn [fst snd]. rewrite decide_False by done. simpl. lia.
  - destruct Hs as (target & n & _ & Hn & Hpos & ->). cbn [fst snd].
    rewrite decide_True by done. simpl.
    rewrite (budget_left_insert _ _ n) by done. lia.
  - rewrite Hs. cbn [fst snd]. rewrite decide_False by done. simpl. lia.
Qed.

(** X4. Along any run of requests every answer that shows a banner takes
    exactly one from the budget left (the sum of the positive show
    counts) and no other answer changes it; so a run never shows more
    banners than the budget left at its start. *)
Theorem shown_banners_spend_budget app reqs :
  budget_left (banner_shows (serve_all app reqs).2) + banners_shown (serve_all app reqs).1 =
  budget_left (banner_shows app) ∧
  banners_shown (serve_all app reqs).1 ≤ budget_left (banner_shows app).
Proof.
  assert (budget_left (banner_shows (serve_all app reqs).2) +
          banners_shown (serve_all app reqs).1 = budget_left (banner_shows app)) as Heq.
  { revert app. induction reqs as [|[req seed] reqs IH]; intros app.
    - simpl. unfold banners_shown. simpl. lia.
    - cbn [serve_all]. pose proof (serve_budget_step app req seed) as Hstep.
      destruct (serve app req seed) as [resp app1]. cbn [fst snd] in Hstep.
      specialize (IH app1). destruct (serve_all app1 reqs) as [resps app2].
      cbn [fst snd] in *. rewrite banners_shown_cons. lia. }
  split; [done|].
  pose proof (budget_left_nonneg (banner_shows (serve_all app reqs).2)). lia.
Qed.

End Budget.

(** ** The last banner, where the list has no repetition *)

Section Repetition.
Context `{SetOrder}.

Lemma candidates_NoDup app categories :
  categories ≠ [] ∨ NoDup (banner_urls app) → NoDup (candidates app categories).
Proof.
  destruct categories as [|c cs]; simpl.
  - by intros [?|?].
  - intros _. apply list_of_set_NoDup.
Qed.

(** X5. When categories are requested, or when no identifier is repeated
    in the list of banners, a client whose last banner is not the empty
    string is not shown that banner again as long as another candidate
    has budget left: the answer shows a banner, and a different one. *)
Theorem last_banner_not_repeated app req seed last :
  ledger_covers app →
  request_categories req ≠ [] ∨ NoDup (banner_urls app) →
  last_banners app !! remote_ip req = Some last →
  last ≠ "" →
  (∃ other, other ≠ last ∧ candidate app (request_categories req) other ∧
            has_budget (banner_shows app) other) →
  (∃ url, url ≠ last ∧ shows_banner url (serve app req seed).1) ∧
  ¬ shows_banner last (serve app req seed).1.
Proof.
  intros Hcov Hnd Hlast Hne (other & Hother & Hcand & Hbudget).
  destruct (positive_shows_ok (banner_shows app) (candidates app (request_categories req)))
    as [l Hl]; [by apply ledger_covers_candidates|].
  pose proof (positive_shows_filter _ _ _ Hl) as Hfilter.
  assert (NoDup l) as Hndl by (rewrite Hfilter; by apply NoDup_filter, candidates_NoDup).
  assert (other ∈ l) as Hin
    by (rewrite Hfilter; apply list_elem_of_filter; by rewrite elem_of_candidates).
  rewrite <- budget_eligible_eq in Hl.
  assert (∃ r, eligible app req = Ok r ∧ r ≠ [] ∧ last ∉ r) as (r & Hr & Hnil & Hout).
  { destruct (decide (last ∈ l)) as [Hlast_in|Hlast_out].
    - destruct (last_banner_removed app req l last Hl Hndl Hlast Hne Hlast_in)
        as (r & Hr & [[-> _]|(_ & Hnil & Hout & _)]).
      + by apply list_elem_of_singleton in Hin.
      + by exists r.
    - rewrite eligible_eq, Hl.
      destruct (without_last_banner_run l (new_handler (after_lookups app req) req))
        as (r & Hr & Hsub & Hnil & _). rewrite Hr. exists r. split; [done|].
      split; [|by intros ?%Hsub].
      intros ->%Hnil. by apply elem_of_nil in Hin. }
  pose proof (serve_shown app req seed) as Hs. rewrite Hr in Hs.
  destruct r as [|b bs]; [done|].
  destruct Hs as (target & n & Htarget & _ & _ & ->). cbn [fst].
  assert (target ≠ last) as Hdiff by (by intros ->).
  split.
  - exists target. split; [done|]. by apply shows_banner_iff.
  - by intros [= ->%banner_html_inj]%shows_banner_iff.
Qed.

(** X6. When exactly one banner among the candidates of a request has
    budget left, that banner is shown, be it the last banner of the
    client or not, and however often its identifier is repeated. *)
Theorem only_banner_with_budget_shown app req seed url :
  ledger_covers app →
  candidate app (request_categories req) url →
  has_budget (banner_shows app) url →
  (∀ other, candidate app (request_categories req) other →
            has_budget (banner_shows app) other → other = url) →
  (serve app req seed).1 = mkResponse 200 (banner_html url).
Proof.
  intros Hcov Hcand Hbudget Honly.
  destruct (ledger_covers_eligible app req Hcov) as [r Hr].
  pose proof (serve_shown app req seed) as Hs. rewrite Hr in Hs.
  destruct r as [|b bs].
  - exfalso. revert Hr. rewrite eligible_eq, budget_eligible_eq.
    destruct (positive_shows _ _) as [l|e] eqn:Hl; [|done].
    apply positive_shows_filter in Hl.
    destruct (without_last_banner_run l (new_handler (after_lookups app req) req))
      as (r & -> & _ & Hnil & _). intros [= ->]. specialize (Hnil eq_refl).
    assert (url ∈ l) as Hin
      by (rewrite Hl; apply list_elem_of_filter; by rewrite elem_of_candidates).
    rewrite Hnil in Hin. by apply elem_of_nil in Hin.
  - destruct Hs as (target & n & Htarget & _ & _ & ->). cbn [fst].
    destruct (eligible_elem app req _ _ Hr Htarget) as [Hc Hb].
    by rewrite (Honly target Hc Hb).
Qed.

End Repetition.

Lemma last_banner_not_repeated_witness :
  ¬ shows_banner "a.png"
      (serve (H := gset_order)
         (serve (H := gset_order) spent_app (category_request "10.0.0.1" []) 0).2
         (category_request "10.0.0.1" []) 0).1.
Proof.
  apply (last_banner_not_repeated (H := gset_order)
           (serve (H := gset_order) spent_app (category_request "10.0.0.1" []) 0).2
           (category_request "10.0.0.1" []) 0 "a.png").
  - apply (bool_decide_unpack _). vm_compute. exact I.
  - right. apply (bool_decide_unpack _). vm_compute. exact I.
  - reflexivity.
  - discriminate.
  - exists "b.png". split; [discriminate|]. split.
    + change ("b.png" ∈ ["a.png"; "b.png"]). right. left.
    + exists 1. split; [reflexivity | lia].
Defined.

Lemma only_banner_with_budget_shown_witness :
  (serve (H := gset_order) spent_app (category_request "10.0.0.1" ["y"]) 4).1
  = mkResponse 200 (banner_html "b.png").
Proof.
  apply (only_banner_with_budget_shown (H := gset_order) spent_app
           (category_request "10.0.0.1" ["y"]) 4 "b.png").
  - apply (bool_decide_unpack _). vm_compute. exact I.
  - exists "y". split; [left | left].
  - exists 1. split; [reflexivity | lia].
  - intros other (c & Hc & Hreg) _. apply list_elem_of_singleton in Hc. subst c.
    apply list_elem_of_singleton in Hreg. exact Hreg.
Defined.

(** ** Loading, and the loaded application over a run *)

Lemma py_int_raise field e : py_int field = Raise e → e = ValueError field.
Proof.
  unfold py_int. destruct (lstrip field) as [|a r]; simpl.
  - by intros [= <-].
  - destruct (match String a r with
              | String "-" r0 => (true, r0)
              | String "+" r0 => (false, r0)
              | _ => (false, String a r)
              end) as [neg rest].
    destruct (int_digits rest 0 false); [done | by intros [= <-]].
Qed.

(** X8. When a row is refused, loading stops there with the exception of
    that row, whatever follows it: [IndexError] for a row of fewer than
    two fields, and otherwise the [ValueError] of [int] on the second
    field. *)
Theorem first_bad_row_decides good row rest :
  Forall (λ r, ¬ bad_row r) good →
  bad_row row →
  Application_init (good ++ row :: rest) =
  Raise (match row with
         | _ :: field :: _ => ValueError field
         | _ => IndexError
         end).
Proof.
  intros Hgood Hbad. unfold Application_init, read_config.
  enough (∀ a, ∃ a', read_rows (good ++ row :: rest) a =
                     (Raise (match row with
                             | _ :: field :: _ => ValueError field
                             | _ => IndexError
                             end), a')) as Hrun.
  { destruct (Hrun empty_application) as [a' ->]. done. }
  induction Hgood as [|r good Hr _ IH]; intros a.
  - cbn [app read_rows]. unfold mbind, M_bind, bind. rewrite read_row_run.
    destruct row as [|url [|field categories]]; [by eexists..|].
    destruct Hbad as [Hlen|(f & e & [= <-] & He)]; [simpl in Hlen; lia|].
    rewrite He. apply py_int_raise in He as ->. by eexists.
  - cbn [app read_rows]. unfold mbind, M_bind, bind. rewrite read_row_run.
    destruct r as [|url [|field categories]].
    + exfalso. apply Hr. left. simpl. lia.
    + exfalso. apply Hr. left. simpl. lia.
    + destruct (py_int field) as [n|e] eqn:E; [apply IH|].
      exfalso. apply Hr. right. by exists field, e.
Qed.

Lemma first_bad_row_decides_witness :
  Application_init [["a.png"; "3"]; ["b.png"; "many"; "x"]; ["c.png"]]
  = Raise (ValueError "many").
Proof.
  apply (first_bad_row_decides [["a.png"; "3"]] ["b.png"; "many"; "x"] [["c.png"]]).
  - repeat constructor. intros [Hlen|(f & e & Hf & He)];
      [simpl in Hlen; lia | injection Hf as <-; discriminate He].
  - right. exists "many", (ValueError "many"). split; reflexivity.
Defined.

Section LoadedRuns.
Context `{SetOrder}.

Lemma serve_inventory app req seed :
  banner_urls (serve app req seed).2 = banner_urls app ∧
  ∀ category, registered (serve app req seed).2 category = registered app category.
Proof.
  pose proof (serve_cases app req seed) as Hs.
  assert (banner_urls (serve app req seed).2 = banner_urls app ∧
          banner_categories (serve app req seed).2 =
          touched (request_categories req) (banner_categories app)) as [Hurls Hidx].
  { destruct (eligible app req) as [[|b bs]|e].
    - by rewrite Hs.
    - destruct Hs as (target & n & _ & _ & _ & ->). done.
    - by rewrite Hs. }
  split; [done|]. intros c. unfold registered. rewrite Hidx. apply touched_default.
Qed.

Lemma serve_all_inventory app reqs :
  banner_urls (serve_all app reqs).2 = banner_urls app ∧
  ∀ category, registered (serve_all app reqs).2 category = registered app category.
Proof.
  revert app. induction reqs as [|[req seed] reqs IH]; intros app; [done|].
  cbn [serve_all]. pose proof (serve_inventory app req seed) as [Hu Hc].
  destruct (serve app req seed) as [resp app1]. cbn [snd] in Hu, Hc.
  specialize (IH app1). destruct (serve_all app1 reqs) as [resps app2].
  cbn [snd] in *. destruct IH as [IHu IHc]. split; [congruence|].
  intros c. by rewrite IHc.
Qed.

Lemma serve_status app req seed :
  ledger_covers app →
  status (serve app req seed).1 = 200 ∨ status (serve app req seed).1 = 404.
Proof.
  intros Hcov. pose proof (serve_cases app req seed) as Hs.
  destruct (ledger_covers_eligible app req Hcov) as [r Hr]. rewrite Hr in Hs.
  destruct r as [|b bs]; [rewrite Hs; by right|].
  destruct Hs as (target & n & _ & _ & _ & ->). by left.
Qed.

(** X10. Whatever run of requests came before, a banner shown by an
    application loaded from a configuration is the identifier of one of
    its rows; and when the request names categories, of a row that names
    one of them. *)
Theorem shown_banner_is_configured rows app reqs req seed url :
  Application_init rows = Ok app →
  shows_banner url (serve (serve_all app reqs).2 req seed).1 →
  ∃ row, row ∈ rows ∧ row_url row = Some url ∧
         (request_categories req ≠ [] →
          ∃ category, category ∈ request_categories req ∧ category ∈ drop 2 row).
Proof.
  intros Hload Hshown.
  pose proof (Application_init_run _ _ Hload) as Hrun.
  apply read_rows_run in Hrun as (Hurls & _ & _ & Hcats & _).
  pose proof (serve_all_inventory app reqs) as [Hu Hc].
  set (app' := (serve_all app reqs).2) in *.
  assert (candidate app' (request_categories req) url) as Hcand.
  { pose proof (serve_shown app' req seed) as Hs.
    destruct (eligible app' req) as [[|b bs]|e] eqn:Hr.
    - rewrite Hs in Hshown. by destruct Hshown as [[=] _].
    - destruct Hs as (target & n & Hin & _ & _ & Hs). rewrite Hs in Hshown.
      apply shows_banner_iff in Hshown as [= ->%banner_html_inj].
      by apply (eligible_elem app' req _ _ Hr) in Hin as [? _].
    - rewrite Hs in Hshown. by destruct Hshown as [[=] _]. }
  unfold candidate in Hcand. destruct (request_categories req) as [|c0 cs] eqn:Hreq.
  - rewrite Hu, Hurls in Hcand. simpl in Hcand.
    apply list_elem_of_omap in Hcand as (row & Hin & Hrow).
    exists row. split; [done|]. split; [done|]. by intros [].
  - destruct Hcand as (c & Hcin & Hreg). rewrite Hc, Hcats in Hreg.
    assert (registered empty_application c = []) as Hnil
      by (unfold registered; simpl; by rewrite lookup_empty).
    rewrite Hnil, app_nil_l in Hreg.
    apply list_elem_of_bind in Hreg as (row & Hm & Hin).
    unfold row_memberships in Hm. destruct (row_url row) as [u|] eqn:Hrow;
      [|by apply elem_of_nil in Hm].
    apply list_elem_of_fmap in Hm as (c' & -> & [-> Hc']%list_elem_of_filter).
    exists row. split; [done|]. split; [done|]. intros _. by exists c.
Qed.

End LoadedRuns.

Lemma shown_banner_is_configured_witness :
  ∃ row, row ∈ demo_rows ∧ row_url row = Some "b.png" ∧
         (request_categories (category_request "10.0.0.1" ["x"]) ≠ [] →
          ∃ category, category ∈ request_categories (category_request "10.0.0.1" ["x"]) ∧
                      category ∈ drop 2 row).
Proof.
  apply (shown_banner_is_configured (H := gset_order) demo_rows demo_app
           [(category_request "10.0.0.1" ["x"], 0)] (category_request "10.0.0.1" ["x"]) 0).
  - reflexivity.
  - apply (bool_decide_unpack _). vm_compute. exact I.
Defined.

(** ** The anti-repetition step on any list *)

Section AntiRepetition.
Context `{SetOrder}.

(** X11. The list given to the random choice is the budget-eligible list,
    or that list less one entry; its banners are budget-eligible, and
    all the budget-eligible banners other than the last banner of the
    client are in it; it is empty only when the budget-eligible list is;
    and for a client without a last banner it is the budget-eligible
    list itself. *)
Theorem anti_repetition_drops_at_most_one app req l :
  budget_eligible app req = Ok l →
  ∃ r, eligible app req = Ok r ∧
       (r = l ∨ length l = S (length r)) ∧
       (∀ url, url ∈ r → url ∈ l) ∧
       (∀ url, url ∈ l → last_banners app !! remote_ip req ≠ Some url → url ∈ r) ∧
       (r = [] → l = []) ∧
       (last_banners app !! remote_ip req = None → r = l).
Proof.
  intros Hl. rewrite eligible_eq, Hl.
  unfold without_last_banner, mbind, M_bind, bind, gets, get_last_banner. simpl.
  destruct (last_banners app !! remote_ip req) as [last|] eqn:E.
  2:{ exists l. repeat split; auto. }
  destruct (truthy (Some last) && bool_decide (last ∈ l)) eqn:Hc.
  2:{ exists l. repeat split; auto. }
  apply andb_true_iff in Hc as [_ Hin%bool_decide_eq_true].
  destruct (Z.ltb_spec 1 (Z.of_nat (length l))) as [Hlen|Hlen].
  - destruct (list_remove_first_elem last l Hin) as (r & Hr & Hlr & Hsub & Hkeep & _).
    exists r. unfold lift. rewrite Hr.
    split; [done|]. split; [by right|]. split; [done|]. split; [|split; [|done]].
    + intros url Hurl Hne. apply Hkeep; [done|]. congruence.
    + intros ->. simpl in Hlr. lia.
  - exists l. unfold mret, M_ret, ret. repeat split; auto.
Qed.

End AntiRepetition.

Lemma anti_repetition_drops_at_most_one_witness :
  ∃ r, eligible (H := gset_order)
         (serve (H := gset_order) repeated_app (category_request "10.0.0.1" []) 0).2
         (category_request "10.0.0.1" []) = Ok r ∧
       "b.png" ∈ r.
Proof.
  destruct (anti_repetition_drops_at_most_one (H := gset_order)
              (serve (H := gset_order) repeated_app (category_request "10.0.0.1" []) 0).2
              (category_request "10.0.0.1" []) ["a.png"; "a.png"; "b.png"])
    as (r & Hr & _ & _ & Hkeep & _).
  - vm_compute. reflexivity.
  - exists r. split; [exact Hr|]. apply Hkeep.
    + right. right. left.
    + intros Heq. vm_compute in Heq. discriminate Heq.
Defined.

(** ** One page per banner *)

(** X12. The pages of two different banners are different: the answer
    tells which banner was shown. *)
Theorem banner_wrapper_distinct url url' :
  url ≠ url' → banner_wrapper url ≠ banner_wrapper url'.
Proof.
  intros Hne. rewrite !banner_wrapper_run. intros [= Heq%banner_html_inj]. done.
Qed.

Lemma banner_wrapper_distinct_witness : banner_wrapper "a.png" ≠ banner_wrapper "a.pn".
Proof. apply banner_wrapper_distinct. discriminate. Defined.

(** ** The history over a run *)

Section History.
Context `{SetOrder}.

Lemma serve_all_app app reqs1 reqs2 :
  serve_all app (reqs1 ++ reqs2) =
  ((serve_all app reqs1).1 ++ (serve_all (serve_all app reqs1).2 reqs2).1,
   (serve_all (serve_all app reqs1).2 reqs2).2).
Proof.
  revert app. induction reqs1 as [|[req seed] reqs1 IH]; intros app.
  - simpl. by destruct (serve_all app reqs2).
  - rewrite <- app_comm_cons. cbn [serve_all].
    destruct (serve app req seed) as [resp app1]. rewrite IH. destruct (serve_all app1 reqs1) as [resps1 app2]. cbn [fst snd].
    by destruct (serve_all app2 reqs2).
Qed.

Lemma serve_history_step app req seed ip :
  (remote_ip req = ip → status (serve app req seed).1 ≠ 200) →
  last_banners (serve app req seed).2 !! ip = last_banners app !! ip.
Proof.
  intros Hquiet. pose proof (serve_shown app req seed) as Hs.
  destruct (eligible app req) as [[|b bs]|e].
  - by rewrite Hs.
  - destruct Hs as (target & n & _ & _ & _ & Hs). rewrite Hs in *. cbn [fst snd] in *.
    simpl. apply lookup_insert_ne. intros Heq. by apply Hquiet.
  - by rewrite Hs.
Qed.

Lemma serve_all_history_quiet app reqs ip :
  Forall2 (λ rq resp, remote_ip rq.1 = ip → status resp ≠ 200) reqs (serve_all app reqs).1 →
  last_banners (serve_all app reqs).2 !! ip = last_banners app !! ip.
Proof.
  revert app. induction reqs as [|[req seed] reqs IH]; intros app; [done|].
  cbn [serve_all]. pose proof (serve_history_step app req seed ip) as Hstep.
  destruct (serve app req seed) as [resp app1]. cbn [fst snd] in Hstep.
  specialize (IH app1). destruct (serve_all app1 reqs) as [resps app2].
  cbn [fst snd] in *. intros [Hhd Htl]%Forall2_cons. rewrite IH by done. auto.
Qed.

(** X13. After a run of requests the history holds, for an address, the
    banner of the latest answer to that address that showed one: if a
    request of the run is answered with a banner, and no later request
    of the run from the same address is answered with status 200, then
    [get_last_banner] gives that banner at the end of the run. *)
Theorem history_is_latest_shown app before req seed after url :
  shows_banner url (serve (serve_all app before).2 req seed).1 →
  Forall2 (λ rq resp, remote_ip rq.1 = remote_ip req → status resp ≠ 200)
    after (serve_all (serve (serve_all app before).2 req seed).2 after).1 →
  last_banners (serve_all app (before ++ (req, seed) :: after)).2 !! remote_ip req
  = Some url.
Proof.
  intros Hshown Hquiet. rewrite serve_all_app. cbn [snd serve_all].
  set (app1 := (serve_all app before).2) in *.
  pose proof (serve_shown app1 req seed) as Hs.
  assert (last_banners (serve app1 req seed).2 !! remote_ip req = Some url) as Hnow.
  { destruct (eligible app1 req) as [[|b bs]|e].
    - rewrite Hs in Hshown. by destruct Hshown as [[=] _].
    - destruct Hs as (target & n & _ & _ & _ & Hs). rewrite Hs in *. cbn [fst snd] in *.
      apply shows_banner_iff in Hshown as [= ->%banner_html_inj].
      simpl. apply lookup_insert_eq.
    - rewrite Hs in Hshown. by destruct Hshown as [[=] _]. }
  pose proof (serve_all_history_quiet (serve app1 req seed).2 after (remote_ip req) Hquiet)
    as Hafter.
  destruct (serve app1 req seed) as [resp app2]. cbn [fst snd] in *.
  destruct (serve_all app2 after) as [resps app3]. cbn [fst snd] in *.
  by rewrite Hafter.
Qed.

End History.

Lemma history_is_latest_shown_witness :
  last_banners
    (serve_all (H := gset_order) demo_app
       ([(category_request "10.0.0.1" [], 0)] ++
        (category_request "10.0.0.1" [], 0) ::
        [(category_request "10.0.0.2" [], 0); (category_request "10.0.0.1" ["q"], 0)])).2
    !! "10.0.0.1" = Some "b.png".
Proof.
  apply (history_is_latest_shown (H := gset_order) demo_app
           [(category_request "10.0.0.1" [], 0)] (category_request "10.0.0.1" []) 0
           [(category_request "10.0.0.2" [], 0); (category_request "10.0.0.1" ["q"], 0)]
           "b.png").
  - apply (bool_decide_unpack _). vm_compute. exact I.
  - vm_compute. repeat constructor; intros; discriminate.
Defined.

(** ** Requests as the framework hands them over *)

Section RawRequests.
Context {codec : Codec} {order : SetOrder}.

Lemma request_categories_decoded raw categories :
  request_categories (decoded_request raw categories) = categories.
Proof. unfold request_categories, decoded_request. simpl. by rewrite lookup_singleton_eq. Qed.

Lemma handle_covers app raw seed :
  ledger_covers app → ledger_covers (handle app raw seed).2.
Proof.
  intros Hcov. unfold handle. destruct (decode_all (raw_categories raw)); [|done].
  by apply serve_covers.
Qed.

(** X3. Against an application whose banners all have a show count: a
    request one of whose [category[]] values does not decode is answered
    500 and leaves the application as it is; a request whose values all
    decode is answered with the page of a banner exactly when one of the
    candidates of the decoded categories has budget left, and with
    "Not found" otherwise; and the banner shown is always such a
    candidate, with a strictly positive count. *)
Theorem request_shown_iff_budget app raw seed :
  ledger_covers app →
  match decode_all (raw_categories raw) with
  | Raise _ => handle app raw seed = (mkResponse 500 "", app)
  | Ok categories =>
      ((∃ url, shows_banner url (handle app raw seed).1) ↔
       (∃ url, candidate app categories url ∧ has_budget (banner_shows app) url)) ∧
      (∀ url, shows_banner url (handle app raw seed).1 →
              candidate app categories url ∧ has_budget (banner_shows app) url) ∧
      ((∀ url, ¬ shows_banner url (handle app raw seed).1) →
       (handle app raw seed).1 = not_found)
  end.
Proof.
  intros Hcov. unfold handle.
  destruct (decode_all (raw_categories raw)) as [categories|e]; [|done].
  pose proof (decoded_shown_iff_budget app (decoded_request raw categories) seed Hcov)
    as Hdecoded.
  by rewrite request_categories_decoded in Hdecoded.
Qed.

(** X9. An application loaded from a configuration answers each request
    of every run with status 200 or 404 when the [category[]] values of
    the request all decode, and with 500 when one of them does not: past
    the decoding the handler never raises, in particular no banner is
    ever without a show count. *)
Theorem loaded_application_answers rows app raws :
  Application_init rows = Ok app →
  Forall2 (λ raw resp,
             match decode_all (raw_categories raw.1) with
             | Ok _ => status resp = 200 ∨ status resp = 404
             | Raise _ => resp = mkResponse 500 ""
             end) raws (handle_all app raws).1.
Proof.
  intros Hcov%Application_init_covers.
  revert app Hcov. induction raws as [|[raw seed] raws IH]; intros app Hcov.
  - constructor.
  - cbn [handle_all]. pose proof (handle_covers app raw seed Hcov) as Hcov1.
    assert (match decode_all (raw_categories raw) with
            | Ok _ => status (handle app raw seed).1 = 200 ∨
                      status (handle app raw seed).1 = 404
            | Raise _ => (handle app raw seed).1 = mkResponse 500 ""
            end) as Hst.
    { unfold handle. destruct (decode_all (raw_categories raw)); [|done].
      by apply serve_status. }
    destruct (handle app raw seed) as [resp app1]. cbn [fst snd] in *.
    specialize (IH app1 Hcov1). destruct (handle_all app1 raws) as [resps app2].
    cbn [fst] in *. by constructor.
Qed.

End RawRequests.

Lemma request_shown_iff_budget_witness :
  ∃ url, shows_banner url
           (handle (codec := utf8_codec) (order := gset_order) demo_app
              (raw_category_request "10.0.0.1" ["x"]) 1).1.
Proof.
  pose proof (request_shown_iff_budget (codec := utf8_codec) (order := gset_order)
                demo_app (raw_category_request "10.0.0.1" ["x"]) 1 demo_app_covers) as Hx.
  change (decode_all (codec := utf8_codec)
            (raw_categories (raw_category_request "10.0.0.1" ["x"])))
    with (Ok (A := list string) ["x"]) in Hx.
  cbv beta iota in Hx. apply (proj2 (proj1 Hx)).
  exists "a.png". split.
  - exists "x". split; [left|]. change ("a.png" ∈ ["a.png"; "b.png"]). left.
  - exists 1. split; [reflexivity | lia].
Defined.

Lemma loaded_application_answers_witness :
  Forall2 (λ raw resp,
             match decode_all (codec := utf8_codec) (raw_categories raw.1) with
             | Ok _ => status resp = 200 ∨ status resp = 404
             | Raise _ => resp = mkResponse 500 ""
             end)
    [(raw_category_request "10.0.0.1" ["x"], 0);
     (raw_category_request "10.0.0.1" [String (ascii_of_nat 255) ""], 1);
     (raw_category_request "10.0.0.2" [], 5)]
    (handle_all (codec := utf8_codec) (order := gset_order) demo_app
       [(raw_category_request "10.0.0.1" ["x"], 0);
        (raw_category_request "10.0.0.1" [String (ascii_of_nat 255) ""], 1);
        (raw_category_request "10.0.0.2" [], 5)]).1.
Proof.
  apply (loaded_application_answers (codec := utf8_codec) (order := gset_order)
           demo_rows demo_app).
  reflexivity.
Defined.
